(** * Colour transforms and mosaic layout of the egoengine video scripts

    A shallow embedding of the Python scripts

      - [src/exp/tune_video.py]  (exposure / contrast / gain / gamma),
      - [src/color.py]           (gray-world power-mean equalisation,
                                  in-place overwrite of a clip),
      - [src/make_teaser.py]     (tile normalisation and [xstack] mosaic),

    followed by the properties of these functions.

    NumPy computes on [float32] arrays.  Samples are therefore modelled
    as IEEE-754 binary32 numbers, with the correctly rounded operations
    of [SpecFloat] at precision 24; Python's own [float] is binary64
    (precision 53).  What the scripts obtain from outside the repository
    is a parameter of the model: [powf] of the C library, NumPy's
    reduction order in [mean], the video decoder, the encoder. *)

From Stdlib Require Import ZArith QArith Qabs Qround Ascii String.
From Stdlib Require Import Floats.SpecFloat.
From stdpp Require Import base tactics option list strings gmap pretty.

Local Open Scope Z_scope.

(* ===================================================================== *)
(** * Python results: a value or a raised exception *)
(* ===================================================================== *)

Inductive py_exn : Type :=
  | ZeroDivisionError
  | RuntimeError (msg : string)
  | FileNotFoundError (path : string)
  | CalledProcessError
  | OverflowError
  | ValueError
  | AssertionError (msg : string)
  | SystemExit (code : Z).

Inductive result (A : Type) : Type :=
  | Ok (a : A)
  | Raise (e : py_exn).
Arguments Ok {A} a.
Arguments Raise {A} e.

#[global] Instance result_ret : MRet result := λ A a, Ok a.
#[global] Instance result_bind : MBind result := λ A B f m,
  match m with
  | Ok a => f a
  | Raise e => Raise e
  end.

(* ===================================================================== *)
(** * Floating-point numbers *)
(* ===================================================================== *)

(** Python [float]: IEEE-754 binary64. *)
Module F64.
Definition prec : Z := 53.
Definition emax : Z := 1024.
Definition of_Z (z : Z) : spec_float := binary_normalize prec emax z 0 false.
Definition div : spec_float → spec_float → spec_float := SFdiv prec emax.
Definition eqb : spec_float → spec_float → bool := SFeqb.
Definition ltb : spec_float → spec_float → bool := SFltb.
(** The decimal literal [n / 10^k]; numerator and denominator are exact
    for the literals of the scripts, so the quotient is the correctly
    rounded value, as Python reads it. *)
Definition dec (n : Z) (k : Z) : spec_float := div (of_Z n) (of_Z (10 ^ k)).
(** [math.ceil(x)]: an integer, [OverflowError] on an infinity and
    [ValueError] on NaN. *)
Definition ceil (x : spec_float) : result Z :=
  match x with
  | S754_zero _ => Ok 0
  | S754_finite s m e =>
      if 0 <=? e then Ok ((if s then Z.neg m else Z.pos m) * 2 ^ e)
      else Ok (- ((if s then Z.pos m else Z.neg m) / 2 ^ (- e)))
  | S754_infinity _ => Raise OverflowError
  | S754_nan => Raise ValueError
  end.
(** Python truthiness of a float: [bool(x)] is [x != 0.0]. *)
Definition truthy (x : spec_float) : bool := negb (eqb x (S754_zero false)).
End F64.

(** NumPy [float32]: IEEE-754 binary32. *)
Module F32.
Definition prec : Z := 24.
Definition emax : Z := 128.
Definition of_Z (z : Z) : spec_float := binary_normalize prec emax z 0 false.
Definition add : spec_float → spec_float → spec_float := SFadd prec emax.
Definition sub : spec_float → spec_float → spec_float := SFsub prec emax.
Definition mul : spec_float → spec_float → spec_float := SFmul prec emax.
Definition div : spec_float → spec_float → spec_float := SFdiv prec emax.
Definition ltb : spec_float → spec_float → bool := SFltb.
Definition leb : spec_float → spec_float → bool := SFleb.
Definition zero : spec_float := S754_zero false.

Definition is_nan (x : spec_float) : bool :=
  match x with S754_nan => true | _ => false end.

(** A Python scalar entering a [float32] operation is first converted
    to [float32] (round to nearest even, overflow to infinity). *)
Definition of_f64 (x : spec_float) : spec_float :=
  match x with
  | S754_finite s m e => binary_round prec emax s m e
  | _ => x
  end.

(** Truncation toward zero of a finite value. *)
Definition trunc (x : spec_float) : Z :=
  match x with
  | S754_finite s m e =>
      let a := if (0 <=? e) then Z.pos m * 2 ^ e else Z.pos m / 2 ^ (- e) in
      if s then - a else a
  | _ => 0
  end.

(** The rational number a float denotes ([None] for NaN and infinities). *)
Definition to_Q (x : spec_float) : option Q :=
  match x with
  | S754_zero _ => Some 0%Q
  | S754_finite s m e =>
      let a := if (0 <=? e) then inject_Z (Z.pos m * 2 ^ e)
               else Qmake (Z.pos m) (Z.to_pos (2 ^ (- e))) in
      Some (if s then Qopp a else a)
  | _ => None
  end.

(** [near x q tol]: the float [x] is a number within [tol] of [q]. *)
Definition near (x : spec_float) (q tol : Q) : Prop :=
  match to_Q x with
  | Some v => (Qabs (v - q) < tol)%Q
  | None => False
  end.
End F32.

(* ===================================================================== *)
(** * NumPy arrays of shape (H, W, 3) and the element-wise operations *)
(* ===================================================================== *)

(** One pixel: the three samples of the last axis, in memory order.
    OpenCV frames are B, G, R. *)
Record px (A : Type) : Type := Px { ch0 : A; ch1 : A; ch2 : A }.
Arguments Px {A} ch0 ch1 ch2.
Arguments ch0 {A} p.
Arguments ch1 {A} p.
Arguments ch2 {A} p.

Definition px_map {A B} (f : A → B) (p : px A) : px B :=
  Px (f (ch0 p)) (f (ch1 p)) (f (ch2 p)).

(** Broadcasting a length-3 vector along the last axis. *)
Definition px_zip {A B C} (f : A → B → C) (p : px A) (q : px B) : px C :=
  Px (f (ch0 p) (ch0 q)) (f (ch1 p) (ch1 q)) (f (ch2 p) (ch2 q)).

Definition px_all {A} (P : A → Prop) (p : px A) : Prop :=
  P (ch0 p) ∧ P (ch1 p) ∧ P (ch2 p).

(** An image: rows of pixels. *)
Definition image (A : Type) : Type := list (list (px A)).

Definition img_map_px {A B} (f : px A → px B) (im : image A) : image B :=
  map (map f) im.

Definition img_map {A B} (f : A → B) (im : image A) : image B :=
  img_map_px (px_map f) im.

Definition img_all {A} (P : A → Prop) (im : image A) : Prop :=
  Forall (Forall (px_all P)) im.

(** The shape of an image: the length of every row. *)
Definition shape {A} (im : image A) : list nat := map length im.

(** An 8-bit sample. *)
Definition u8 (s : Z) : Prop := 0 ≤ s < 256.

(** A decoded frame: 3 channels of [uint8]. *)
Definition frame_u8 (im : image Z) : Prop := img_all u8 im.

Module np.
(** [arr.astype(float32)] on [uint8] samples: exact. *)
Definition astype_float32 (im : image Z) : image spec_float :=
  img_map F32.of_Z im.

(** The scalar kernel of [np.clip] on floats:
    [_NPY_MIN(_NPY_MAX(x, lo), hi)], where NaN in the first argument
    propagates and otherwise [MAX(a,b) = a > b ? a : b],
    [MIN(a,b) = a < b ? a : b]. *)
Definition fmax (a b : spec_float) : spec_float :=
  if F32.is_nan a then a else if F32.ltb b a then a else b.
Definition fmin (a b : spec_float) : spec_float :=
  if F32.is_nan a then a else if F32.ltb a b then a else b.
Definition clip (x : spec_float) (lo hi : Z) : spec_float :=
  fmin (fmax x (F32.of_Z lo)) (F32.of_Z hi).

(** [arr.astype(uint8)] on one [float32] sample: the C conversion to
    [unsigned char].  It truncates toward zero when the truncated value
    fits.  Outside that range C leaves the result open and NumPy still
    stores a byte: the low byte of the truncated value, and 0 for NaN
    and the infinities (the x86-64 and AArch64 results).  After
    [clip x 0 255] only the NaN case is outside the range. *)
Definition astype_uint8 (x : spec_float) : Z :=
  match x with
  | S754_finite _ _ _ => F32.trunc x `mod` 256
  | _ => 0
  end.

(** [arr.tobytes()]: row-major, channel last. *)
Definition tobytes (im : image Z) : list Z :=
  concat (map (λ row, concat (map (λ p, [ch0 p; ch1 p; ch2 p]) row)) im).
End np.

(* ===================================================================== *)
(** * OpenCV: what a [cv2.VideoCapture] delivers *)
(* ===================================================================== *)

Module cv2.
(** A decoded array: 2-D grayscale or 3-channel B, G, R. *)
Inductive ndarray : Type :=
  | Gray (g : list (list Z))
  | Bgr (im : image Z).

(** One opened (or not) input: whether it opened, the properties it
    reports, and the outcome of each successive [cap.read()] ([None] is
    [ok = False]); once the list is used up every further read fails.
    [F] is the type of the frames read. *)
Record capture (F : Type) : Type := Capture {
  cap_opened : bool;
  cap_fps : spec_float;
  cap_width : Z;
  cap_height : Z;
  cap_frame_count : Z;
  cap_reads : list (option F)
}.
Arguments Capture {F} _ _ _ _ _ _.
Arguments cap_opened {F} _.
Arguments cap_fps {F} _.
Arguments cap_width {F} _.
Arguments cap_height {F} _.
Arguments cap_frame_count {F} _.
Arguments cap_reads {F} _.

(** [ok, f = cap.read()]: the outcome and the reads that remain. *)
Definition cap_read {F} (reads : list (option F))
  : option F * list (option F) :=
  match reads with
  | [] => (None, [])
  | r :: reads' => (r, reads')
  end.

(** [cv2.cvtColor(frame, cv2.COLOR_GRAY2BGR)]. *)
Definition gray2bgr (g : list (list Z)) : image Z :=
  map (map (λ v, Px v v v)) g.
End cv2.

(* ===================================================================== *)
(** * src/exp/tune_video.py *)
(* ===================================================================== *)

Module tune_video.
Section with_libm.
(** [powf] of the C library, which [np.power] calls on [float32]. *)
Variable powf : spec_float → spec_float → spec_float.

(** Python [a != b] on floats. *)
Definition py_ne (a b : spec_float) : bool := negb (F64.eqb a b).

(** Python [a / b] on floats. *)
Definition py_truediv (a b : spec_float) : result spec_float :=
  if F64.eqb b (S754_zero false) then Raise ZeroDivisionError
  else Ok (F64.div a b).

(** Step 1, [img *= float(exposure)]. *)
Definition step_exposure (exposure : spec_float) (img : image spec_float)
  : image spec_float :=
  img_map (λ x, F32.mul x (F32.of_f64 exposure)) img.

(** Step 2, the gains (R, G, B) on the B, G, R memory layout:
    [img[..., 0] *= b_gain; img[..., 1] *= g_gain; img[..., 2] *= r_gain]. *)
Definition step_gains (rgb_ratio : spec_float * spec_float * spec_float)
    (img : image spec_float) : image spec_float :=
  let '(r_gain, g_gain, b_gain) := rgb_ratio in
  img_map_px (λ p, Px (F32.mul (ch0 p) (F32.of_f64 b_gain))
                      (F32.mul (ch1 p) (F32.of_f64 g_gain))
                      (F32.mul (ch2 p) (F32.of_f64 r_gain))) img.

(** Step 3, [if contrast != 1.0: img = 128.0 + (img - 128.0) * contrast]. *)
Definition step_contrast (contrast : spec_float) (img : image spec_float)
  : image spec_float :=
  if py_ne contrast (F64.of_Z 1) then
    img_map (λ x, F32.add (F32.of_f64 (F64.of_Z 128))
                    (F32.mul (F32.sub x (F32.of_f64 (F64.of_Z 128)))
                             (F32.of_f64 contrast))) img
  else img.

(** The base handed to the power: [np.clip(img, 0, 255) / 255.0]. *)
Definition gamma_base (x : spec_float) : spec_float :=
  F32.div (np.clip x 0 255) (F32.of_f64 (F64.of_Z 255)).

(** Step 4,
    [if gamma != 1.0:
        img = np.clip(img, 0, 255) / 255.0
        img = np.power(img, 1.0 / float(gamma)) * 255.0]. *)
Definition step_gamma (gamma : spec_float) (img : image spec_float)
  : result (image spec_float) :=
  if py_ne gamma (F64.of_Z 1) then
    let img := img_map gamma_base img in
    inv ← py_truediv (F64.of_Z 1) gamma;
    mret (img_map (λ x, F32.mul (powf x (F32.of_f64 inv))
                                (F32.of_f64 (F64.of_Z 255))) img)
  else mret img.

(** [img = np.clip(img, 0, 255).astype(np.uint8)]. *)
Definition step_store (img : image spec_float) : image Z :=
  img_map (λ x, np.astype_uint8 (np.clip x 0 255)) img.

Definition apply_adjust (frame_bgr : image Z)
    (exposure contrast : spec_float)
    (rgb_ratio : spec_float * spec_float * spec_float)
    (gamma : spec_float) : result (image Z) :=
  let img := np.astype_float32 frame_bgr in
  let img := step_exposure exposure img in
  let img := step_gains rgb_ratio img in
  let img := step_contrast contrast img in
  img ← step_gamma gamma img;
  mret (step_store img).

(** [open_video]: the capture with [fps or 30.0], the size and the
    reported frame count. *)
Definition open_video (path : string) (cap : cv2.capture (image Z))
  : result (cv2.capture (image Z) * spec_float * Z * Z * Z) :=
  if negb (cv2.cap_opened cap) then
    Raise (RuntimeError ("Failed to open video: " +:+ path))
  else
    let fps := if F64.truthy (cv2.cap_fps cap) then cv2.cap_fps cap
               else F64.of_Z 30 in
    mret (cap, fps, cv2.cap_width cap, cv2.cap_height cap,
          cv2.cap_frame_count cap).

Record args : Type := Args {
  arg_inp : string;
  arg_out : string;
  arg_exposure : spec_float;
  arg_contrast : spec_float;
  arg_r : spec_float;
  arg_g : spec_float;
  arg_b : spec_float;
  arg_gamma : spec_float;
  arg_limit : Z
}.

(** [n_frames = min(n_total, args.limit)
                if args.limit and args.limit > 0 else n_total]. *)
Definition n_frames_of (n_total limit : Z) : Z :=
  if negb (limit =? 0) && (0 <? limit) then Z.min n_total limit else n_total.

(** The body of [for i in range(n_frames)], [n] iterations left; [piped]
    collects what was written to the encoder's standard input. *)
Fixpoint frame_loop (a : args) (n : nat) (reads : list (option (image Z)))
    (piped : list (list Z)) : result (list (list Z)) :=
  match n with
  | O => mret piped
  | S n' =>
      let '(r, reads') := cv2.cap_read reads in
      match r with
      | None => mret piped                               (* break *)
      | Some f =>
          adj ← apply_adjust f (arg_exposure a) (arg_contrast a)
                  (arg_r a, arg_g a, arg_b a) (arg_gamma a);
          frame_loop a n' reads' (piped ++ [np.tobytes adj])
      end
  end.

(** The encoder process: the raw-video geometry it was started with and
    the buffers it received. *)
Record encoder_run : Type := EncoderRun {
  enc_out : string;
  enc_width : Z;
  enc_height : Z;
  enc_fps : spec_float;
  enc_stdin : list (list Z)
}.

Definition main (a : args) (cap : cv2.capture (image Z)) : result encoder_run :=
  '(cap, fps, w, h, n_total) ← open_video (arg_inp a) cap;
  let n_frames := n_frames_of n_total (arg_limit a) in
  piped ← frame_loop a (Z.to_nat n_frames) (cv2.cap_reads cap) [];
  mret (EncoderRun (arg_out a) w h fps piped).
End with_libm.
End tune_video.

(* ===================================================================== *)
(** * pathlib: the final component of a path and its suffix *)
(* ===================================================================== *)

Module pathlib.
(** A path, as its parent directory and its final component ([name]). *)
Definition path : Type := string * string.

Definition str (p : path) : string :=
  if decide (p.1 = "") then p.2 else p.1 +:+ "/" +:+ p.2.

(** [p / child]. *)
Definition joinpath (p : path) (child : string) : path := (str p, child).

(** [s.rfind(c)]: the index of the last occurrence. *)
Fixpoint rfind (c : ascii) (s : string) : option nat :=
  match s with
  | EmptyString => None
  | String a s' =>
      match rfind c s' with
      | Some i => Some (S i)
      | None => if Ascii.eqb a c then Some O else None
      end
  end.

(** [PurePath.suffix]:
    [i = name.rfind('.'); name[i:] if 0 < i < len(name) - 1 else '']. *)
Definition suffix (name : string) : string :=
  match rfind "." name with
  | Some i =>
      if (0 <? i)%nat && (i <? String.length name - 1)%nat
      then substring i (String.length name - i) name
      else ""
  | None => ""
  end.

(** [PurePath.with_suffix(suffix)], for a suffix that starts with a dot:
    the old suffix, if any, is cut off and the new one appended. *)
Definition with_suffix (p : path) (new_suffix : string) : path :=
  let name := p.2 in
  let old_suffix := suffix name in
  if decide (old_suffix = "") then (p.1, name +:+ new_suffix)
  else (p.1, substring 0 (String.length name - String.length old_suffix) name
               +:+ new_suffix).
End pathlib.

(* ===================================================================== *)
(** * src/color.py *)
(* ===================================================================== *)

Module color.
Section with_environment.
(** [powf] of the C library, which [**] calls on [float32] arrays. *)
Variable powf : spec_float → spec_float → spec_float.
(** NumPy's [mean] over both axes of an (H, W) plane and over a vector;
    the order in which NumPy adds the terms is its own. *)
Variable np_mean2 : list (list spec_float) → spec_float.
Variable np_mean1 : list spec_float → spec_float.

(** [arr.mean(axis=(0, 1))] of an (H, W, 3) array: one mean per channel. *)
Definition mean_axis01 (im : image spec_float) : px spec_float :=
  Px (np_mean2 (map (map ch0) im))
     (np_mean2 (map (map ch1) im))
     (np_mean2 (map (map ch2) im)).

(** [m.mean()] of the three channel values. *)
Definition mean_px (m : px spec_float) : spec_float :=
  np_mean1 [ch0 m; ch1 m; ch2 m].

Definition color_fix (im : image Z) : image Z :=
  let imf := np.astype_float32 im in
  let p := F64.of_Z 6 in
  let eps := F64.dec 1 6 in
  let m := px_map (λ s, powf (F32.add s (F32.of_f64 eps))
                             (F32.of_f64 (F64.div (F64.of_Z 1) p)))
             (mean_axis01 (img_map (λ x, powf x (F32.of_f64 p)) imf)) in
  let scale := px_map (λ mc, F32.div (mean_px m)
                               (F32.add mc (F32.of_f64 eps))) m in
  let im_corr := img_map (λ x, np.clip x 0 255)
                   (img_map_px (λ q, px_zip F32.mul q scale) imf) in
  let im_out := img_map (λ x, np.astype_uint8 (np.clip x 0 255)) im_corr in
  im_out.

(** ** The files of a job *)

(** The content of a video file. *)
Variable content : Type.
(** [cv2.VideoCapture(path)] on a file with this content. *)
Variable cv2_VideoCapture : content → cv2.capture cv2.ndarray.
(** The file a [cv2.VideoWriter] leaves behind for these frames, or
    [None] when the writer could not open its output. *)
Variable cv2_VideoWriter :
  spec_float → Z → Z → list (image Z) → option content.
(** [shutil.which("ffmpeg") is not None]. *)
Variable has_ffmpeg_on_path : bool.
(** [ffprobe] on a file: width and height, or a failure. *)
Variable ffprobe_size : content → option (Z * Z).
(** One [ffmpeg] transcode to H.264, with or without the [scale] filter:
    the file left at the output path, and whether it exited with 0. *)
Variable ffmpeg_h264 : bool → content → option content * bool.

(** The files of the job, by path. *)
Abbreviation files := (gmap pathlib.path content).

(** [path.unlink(missing_ok=True)]. *)
Definition unlink (p : pathlib.path) (fs : files) : files := delete p fs.

(** [src.replace(dst)]: rename, overwriting [dst]; [None] when [src]
    does not exist (the call raises).  The paths of a job name regular
    files of one directory: a rename that the system refuses although
    its source exists (a directory in the way, missing rights) is not
    part of this model. *)
Definition replace (src dst : pathlib.path) (fs : files) : option files :=
  match fs !! src with
  | Some c => Some (<[dst := c]> (delete src fs))
  | None => None
  end.

Definition has_ffmpeg : bool := has_ffmpeg_on_path.

(** [transcode_h264]: the files afterwards and whether it returned,
    raised [CalledProcessError] ([ffmpeg] failed under [check=True]) or
    raised from the final [replace]. *)
Definition transcode_h264 (src_mp4 : pathlib.path) (fs : files)
  : files * result unit :=
  match fs !! src_mp4 with
  | None => (fs, Raise CalledProcessError)
  | Some c =>
      let wh := ffprobe_size c in
      let tmp := pathlib.with_suffix src_mp4 ".h264.tmp.mp4" in
      let vf := match wh with
                | Some (w, h) =>
                    negb (w =? 0) && negb (h =? 0)
                    && (negb (w `mod` 2 =? 0) || negb (h `mod` 2 =? 0))
                | None => false
                end in
      let '(written, ok) := ffmpeg_h264 vf c in
      let fs := match written with
                | Some c' => <[tmp := c']> fs
                | None => fs
                end in
      if negb ok then (fs, Raise CalledProcessError)
      else match replace tmp src_mp4 fs with
           | Some fs' => (fs', Ok ())
           | None => (fs, Raise (FileNotFoundError (pathlib.str tmp)))
           end
  end.

(** The [while True] loop: read until a read fails; every frame read is
    equalised and written. *)
Fixpoint read_loop (reads : list (option cv2.ndarray)) : list (image Z) :=
  match reads with
  | [] => []
  | None :: _ => []
  | Some frame :: reads' =>
      let frame := match frame with
                   | cv2.Gray g => cv2.gray2bgr g
                   | cv2.Bgr im => im
                   end in
      color_fix frame :: read_loop reads'
  end.

Definition process_one (fpath : pathlib.path) (fs : files)
  : files * result bool :=
  match fs !! fpath with
  | None => (fs, Ok false)                         (* cannot open *)
  | Some c =>
    let cap := cv2_VideoCapture c in
    if negb (cv2.cap_opened cap) then (fs, Ok false)
    else
    let fps := if F64.truthy (cv2.cap_fps cap) then cv2.cap_fps cap
               else F64.of_Z 30 in
    let w := cv2.cap_width cap in
    let h := cv2.cap_height cap in
    if (w <=? 0) || (h <=? 0) then (fs, Ok false)  (* bad size *)
    else
    let tmp_mp4v := pathlib.with_suffix fpath ".tmp.mp4" in
    let written := read_loop (cv2.cap_reads cap) in
    let frames := length written in
    let fs := match cv2_VideoWriter fps w h written with
              | Some c' => <[tmp_mp4v := c']> fs
              | None => fs
              end in
    if (frames =? 0)%nat then (unlink tmp_mp4v fs, Ok false)
    else
    let bak := pathlib.with_suffix fpath ".bak.mp4" in
    let rollback (fs : files) : files * result bool :=
      let fs := unlink fpath fs in
      let fs := match replace bak fpath fs with
                | Some fs' => fs'
                | None => fs
                end in
      (unlink tmp_mp4v fs, Ok false) in
    match replace fpath bak fs with
    | None => rollback fs
    | Some fs =>
      match replace tmp_mp4v fpath fs with
      | None => rollback fs
      | Some fs =>
        let fs := unlink tmp_mp4v fs in
        let '(fs, r) :=
          if has_ffmpeg then transcode_h264 fpath fs else (fs, Ok ()) in
        match r with
        | Ok _ | Raise CalledProcessError => (unlink bak fs, Ok true)
        | Raise e => (fs, Raise e)
        end
      end
    end
  end.

(** Ctrl-C while the job on a file runs, given the files as the job
    finds them: [None] when no [KeyboardInterrupt] is raised during the
    job, else the files the interrupted job has left.  A job writes,
    renames and removes nothing but its file and the three siblings
    [.tmp.mp4], [.bak.mp4] and [.h264.tmp.mp4]; of the files the
    environment answers with, only these four paths are looked at. *)
Variable keyboard_interrupt : pathlib.path → files → option files.

(** The files after a job on [fpath] that stopped with [partial] at its
    four paths: every other path is as the job found it. *)
Definition interrupted_job (fpath : pathlib.path) (partial fs : files)
  : files :=
  foldr (λ p acc, partial_alter (λ _, partial !! p) p acc) fs
        [fpath;
         pathlib.with_suffix fpath ".tmp.mp4";
         pathlib.with_suffix fpath ".bak.mp4";
         pathlib.with_suffix fpath ".h264.tmp.mp4"].

(** The loop of [main] over the files found: a job that returns [True]
    counts as ok; one that returns [False] or raises an [Exception]
    counts as failed, and the loop goes on; a [KeyboardInterrupt]
    during a job ends the loop ([break]) without counting the job. *)
Fixpoint batch_loop (found : list pathlib.path) (ok fail : Z) (fs : files)
  : files * (Z * Z) :=
  match found with
  | [] => (fs, (ok, fail))
  | f :: rest =>
      match keyboard_interrupt f fs with
      | Some partial => (interrupted_job f partial fs, (ok, fail))
      | None =>
          match process_one f fs with
          | (fs, Ok true) => batch_loop rest (ok + 1) fail fs
          | (fs, _) => batch_loop rest ok (fail + 1) fs
          end
      end
  end.

(** [main], given the sorted result of the glob: exit status 0 when
    nothing was found, else the counts of the summary line. *)
Definition main (found : list pathlib.path) (fs : files)
  : files * result (Z * Z) :=
  match found with
  | [] => (fs, Raise (SystemExit 0))
  | _ => let '(fs, counts) := batch_loop found 0 0 fs in (fs, Ok counts)
  end.
End with_environment.
End color.

(* ===================================================================== *)
(** * src/make_teaser.py *)
(* ===================================================================== *)

Module make_teaser.
(** [sep.join(parts)]. *)
Fixpoint join (sep : string) (parts : list string) : string :=
  match parts with
  | [] => ""
  | [x] => x
  | x :: rest => x +:+ sep +:+ join sep rest
  end.

(** The configuration as shipped. *)
Definition ROOT : pathlib.path := ("videos/blending", "human").
Definition FOLDERS_shipped : list string :=
  ["Cassie-bartending"; "Cassie-bartending2"; "Cassie-blinds";
   "Cassie-boardgame"; "Cassie-cat2"; "Cassie-cat_food";
   "Cassie-cooking2"; "Cassie-door"; "Cassie-earbuds"; "Cassie-eyedrops";
   "Cassie-flower"; "Cassie-fridge"; "Cassie-laptop"; "Cassie-microwave";
   "Cassie-oven"; "Cassie-subway"; "Cassie-yogurt"; "Cassie-Rowan-Allen"].
Definition COLS_shipped : Z := 6.
Definition ROWS_shipped : Z := 3.
Definition FPS_OUT : Z := 30.
Definition CRF : string := "20".
Definition PRESET : string := "veryfast".
Definition OUT_DIR : pathlib.path := ("", "videos").
Definition OUT_ORIG : pathlib.path :=
  pathlib.joinpath OUT_DIR "teaser_original.mp4".
Definition OUT_INPAINT : pathlib.path :=
  pathlib.joinpath OUT_DIR "teaser_inpainted.mp4".
Definition TMP_DIR : pathlib.path := pathlib.joinpath OUT_DIR ".teaser_tmp".
Definition DUR_FALLBACK_initial : spec_float := F64.of_Z 10.

(** [even(x) = int(math.ceil((x or 0) / 2.0) * 2)]; the division is
    Python's float division. *)
Definition even (x : option Z) : result Z :=
  let x := match x with Some v => v | None => 0 end in
  c ← F64.ceil (F64.div (F64.of_Z x) (F64.of_Z 2));
  mret (c * 2).

(** [max(xs)] on a non-empty list of integers. *)
Definition py_max (x : Z) (xs : list Z) : Z := foldl Z.max x xs.

(** [max(xs)] on a non-empty list of floats: the running maximum is
    replaced when an item compares greater. *)
Definition py_max_float (x : spec_float) (xs : list spec_float)
  : spec_float :=
  foldl (λ acc y, if F64.ltb acc y then y else acc) x xs.

Section with_config.
(** The grid and its folders are configuration ("edit if you like"). *)
Variable FOLDERS : list string.
Variables COLS ROWS : Z.
(** [Path.exists()]. *)
Variable exists_ : pathlib.path → bool.
(** What [ffprobe] yields for a file: width, height and duration of
    its video stream, or [None] when probing or parsing raises. *)
Variable ffprobe : pathlib.path → option (Z * Z * spec_float).
(** [str(x)] of a float. *)
Variable py_str_float : spec_float → string.
(** Whether an external command exits with status 0. *)
Variable exit_ok : list string → bool.

(** The commands run so far, oldest first. *)
Definition trace : Type := list (list string).

(** [run(cmd)], that is [sp.run(cmd, check=True)]. *)
Definition run (cmd : list string) (tr : trace) : trace * result unit :=
  (tr ++ [cmd], if exit_ok cmd then Ok () else Raise CalledProcessError).

Definition get_w_h_dur (p : pathlib.path)
  : option Z * option Z * option spec_float :=
  match ffprobe p with
  | Some (w, h, dur) => (Some w, Some h, Some dur)
  | None => (None, None, None)
  end.

Definition ensure_norm_tile (DUR_FALLBACK : spec_float)
    (src dst : pathlib.path) (W H : Z) (tr : trace) : trace * result unit :=
  let cmd :=
    if exists_ src then
      let vf := "pad=" +:+ pretty W +:+ ":" +:+ pretty H
                +:+ ":(ow-iw)/2:(oh-ih)/2:black,setsar=1,format=yuv420p" in
      ["ffmpeg"; "-y"; "-v"; "error"; "-i"; pathlib.str src;
       "-vf"; vf; "-c:v"; "libx264"; "-preset"; PRESET; "-crf"; CRF;
       "-movflags"; "+faststart"; "-an"; pathlib.str dst]
    else
      ["ffmpeg"; "-y"; "-v"; "error"; "-f"; "lavfi"; "-i";
       "color=black:s=" +:+ pretty W +:+ "x" +:+ pretty H
         +:+ ":r=" +:+ pretty FPS_OUT;
       "-t"; py_str_float DUR_FALLBACK;
       "-c:v"; "libx264"; "-preset"; PRESET; "-crf"; CRF;
       "-movflags"; "+faststart"; "-an"; pathlib.str dst] in
  run cmd tr.

(** The [layout] list: for each row, for each column, ["{c*W}_{r*H}"]. *)
Definition xstack_layout (W H : Z) : list string :=
  r ← seqZ 0 ROWS;
  c ← seqZ 0 COLS;
  [pretty (c * W) +:+ "_" +:+ pretty (r * H)].

Definition build_xstack (inputs : list pathlib.path)
    (out_path : pathlib.path) (W H : Z) (tr : trace) : trace * result unit :=
  let n := Z.of_nat (length inputs) in
  if negb (n =? COLS * ROWS) then
    (tr, Raise (AssertionError ("Expected " +:+ pretty (COLS * ROWS)
                                +:+ " inputs, got " +:+ pretty n)))
  else
  let chains := (λ i, "[" +:+ pretty i +:+ ":v]setpts=PTS-STARTPTS[v"
                      +:+ pretty i +:+ "]") <$> seqZ 0 n in
  let layout := join "|" (xstack_layout W H) in
  let vs := join "" ((λ i, "[v" +:+ pretty i +:+ "]") <$> seqZ 0 n) in
  let fc := join ";" chains +:+ ";" +:+ vs +:+ "xstack=inputs=" +:+ pretty n
            +:+ ":layout=" +:+ layout +:+ "[vout]" in
  let cmd := ["ffmpeg"; "-y"; "-v"; "error"]
             ++ (p ← inputs; ["-i"; pathlib.str p])
             ++ ["-filter_complex"; fc;
                 "-map"; "[vout]"; "-r"; pretty FPS_OUT;
                 "-c:v"; "libx264"; "-preset"; PRESET; "-crf"; CRF;
                 "-pix_fmt"; "yuv420p"; "-movflags"; "+faststart"; "-an";
                 "-shortest"; pathlib.str out_path] in
  run cmd tr.

(** The body of the first loop of [main], for one path [p]. *)
Definition collect_step (acc : list (Z * Z) * list spec_float)
    (p : pathlib.path) : list (Z * Z) * list spec_float :=
  let '(sizes, durs) := acc in
  if exists_ p then
    let '(w, h, d) := get_w_h_dur p in
    let sizes := match w, h with
                 | Some w, Some h =>
                     if negb (w =? 0) && negb (h =? 0)
                     then sizes ++ [(w, h)] else sizes
                 | _, _ => sizes
                 end in
    let durs := match d with
                | Some d => if F64.truthy d then durs ++ [d] else durs
                | None => durs
                end in
    (sizes, durs)
  else (sizes, durs).

(** The first loop of [main]: sizes and durations over both kinds of
    every folder. *)
Definition collect : list (Z * Z) * list spec_float :=
  foldl collect_step ([], [])
        (name ← FOLDERS;
         kind ← ["cropped_video.mp4"; "inpainted_video.mp4"];
         [pathlib.joinpath (pathlib.joinpath ROOT name) kind]).

(** [W = even(max(w for w,_ in sizes)); H = even(max(h for _,h in sizes))]
    on a non-empty [sizes]; on an empty one [main] exits with status 1. *)
Definition tile_size (sizes : list (Z * Z)) : result (Z * Z) :=
  match sizes with
  | [] => Raise (SystemExit 1)
  | (w0, h0) :: rest =>
      W ← even (Some (py_max w0 (fst <$> rest)));
      H ← even (Some (py_max h0 (snd <$> rest)));
      mret (W, H)
  end.

(** The second loop of [main]: both tiles of every folder, in order;
    it stops at the first command that fails. *)
Fixpoint normalize_all (DUR_FALLBACK : spec_float) (W H : Z)
    (names : list string) (tr : trace) : trace * result unit :=
  match names with
  | [] => (tr, Ok ())
  | name :: names' =>
      let src_o := pathlib.joinpath (pathlib.joinpath ROOT name)
                     "cropped_video.mp4" in
      let src_i := pathlib.joinpath (pathlib.joinpath ROOT name)
                     "inpainted_video.mp4" in
      let dst_o := pathlib.joinpath (pathlib.joinpath TMP_DIR "orig")
                     (name +:+ ".mp4") in
      let dst_i := pathlib.joinpath (pathlib.joinpath TMP_DIR "inpaint")
                     (name +:+ ".mp4") in
      match ensure_norm_tile DUR_FALLBACK src_o dst_o W H tr with
      | (tr, Raise e) => (tr, Raise e)
      | (tr, Ok _) =>
          match ensure_norm_tile DUR_FALLBACK src_i dst_i W H tr with
          | (tr, Raise e) => (tr, Raise e)
          | (tr, Ok _) => normalize_all DUR_FALLBACK W H names' tr
          end
      end
  end.

Definition orig_tiles : list pathlib.path :=
  (λ name, pathlib.joinpath (pathlib.joinpath TMP_DIR "orig")
             (name +:+ ".mp4")) <$> FOLDERS.
Definition inpaint_tiles : list pathlib.path :=
  (λ name, pathlib.joinpath (pathlib.joinpath TMP_DIR "inpaint")
             (name +:+ ".mp4")) <$> FOLDERS.

Definition main : trace * result unit :=
  let '(sizes, durs) := collect in
  match tile_size sizes with
  | Raise e => ([], Raise e)
  | Ok (W, H) =>
      let DUR_FALLBACK := match durs with
                          | [] => DUR_FALLBACK_initial
                          | d :: ds => py_max_float d ds
                          end in
      match normalize_all DUR_FALLBACK W H FOLDERS [] with
      | (tr, Raise e) => (tr, Raise e)
      | (tr, Ok _) =>
          match build_xstack orig_tiles OUT_ORIG W H tr with
          | (tr, Raise e) => (tr, Raise e)
          | (tr, Ok _) => build_xstack inpaint_tiles OUT_INPAINT W H tr
          end
      end
  end.
End with_config.
End make_teaser.


(* ===================================================================== *)
(** * src/batch_tune_color.py *)
(* ===================================================================== *)

Module batch_tune_color.
Definition ROOT : pathlib.path :=
  ("/mnt/data2/dexmimic/workspace/egoengine-webite/videos", "blending").

(** [TASKS], in the order of the dictionary. *)
Definition TASKS : list (string * list Z) :=
  [("drawer", [1; 2; 3; 4]); ("mustard", [1; 2; 3; 4])].

(** The input files of [main], in the order of its two loops. *)
Definition in_files (tasks : list (string * list Z)) : list pathlib.path :=
  '(task, ids) ← tasks;
  i ← ids;
  [pathlib.joinpath (pathlib.joinpath (pathlib.joinpath ROOT task)
                       (pretty i)) "removed_w_mask_5.mp4"].

Section with_ffmpeg.
(** The content of a video file. *)
Variable content : Type.
(** One [ffmpeg] run with the [eq] filter: the file left at the output
    path, and whether it exited with 0. *)
Variable ffmpeg_eq : content → option content * bool.

(** [tune_inplace]: [ffmpeg] writes the temporary file, which then
    replaces the input; a failing [ffmpeg] raises under [check=True]. *)
Definition tune_inplace (in_path : pathlib.path)
    (fs : gmap pathlib.path content)
  : gmap pathlib.path content * result unit :=
  let tmp_path := pathlib.with_suffix in_path ".tmp.mp4" in
  match fs !! in_path with
  | None => (fs, Raise CalledProcessError)
  | Some c =>
      let '(written, ok) := ffmpeg_eq c in
      let fs := match written with
                | Some c' => <[tmp_path := c']> fs
                | None => fs
                end in
      if negb ok then (fs, Raise CalledProcessError)
      else match fs !! tmp_path with
           | Some c' => (<[in_path := c']> (delete tmp_path fs), Ok ())
           | None => (fs, Raise (FileNotFoundError (pathlib.str tmp_path)))
           end
  end.

(** The two loops of [main] over the input files: a missing file is
    skipped and counted; an exception of [tune_inplace] ends the run. *)
Fixpoint main_loop (inputs : list pathlib.path) (processed missing : Z)
    (fs : gmap pathlib.path content)
  : gmap pathlib.path content * result (Z * Z) :=
  match inputs with
  | [] => (fs, Ok (processed, missing))
  | in_file :: rest =>
      match fs !! in_file with
      | None => main_loop rest processed (missing + 1) fs
      | Some _ =>
          match tune_inplace in_file fs with
          | (fs, Ok _) => main_loop rest (processed + 1) missing fs
          | (fs, Raise e) => (fs, Raise e)
          end
      end
  end.

Definition main (fs : gmap pathlib.path content)
  : gmap pathlib.path content * result (Z * Z) :=
  main_loop (in_files TASKS) 0 0 fs.
End with_ffmpeg.
End batch_tune_color.

(* ===================================================================== *)
(** * Notions used to state the properties *)
(* ===================================================================== *)

(** The frames a source yields before its first failed read. *)
Fixpoint yielded {F} (reads : list (option F)) : list F :=
  match reads with
  | Some f :: reads' => f :: yielded reads'
  | _ => []
  end.

(** What [np.clip x 0 255] can be: NaN, or a number from 0 to 255. *)
Inductive clipped : spec_float → Prop :=
  | clipped_nan : clipped S754_nan
  | clipped_zero : clipped (S754_zero false)
  | clipped_top : clipped (F32.of_Z 255)
  | clipped_pos m e :
      F32.ltb (S754_finite false m e) (F32.of_Z 255) = true →
      clipped (S754_finite false m e).

(** One sample through the steps of [tune_video.apply_adjust], with the
    gain of its channel: exposure, gain, contrast around 128 unless the
    contrast is 1.0, gamma unless it is 1.0, then clip and conversion. *)
Definition adjust_sample (powf : spec_float → spec_float → spec_float)
    (exposure contrast gain gamma : spec_float) (v : Z) : Z :=
  let x := F32.of_Z v in
  let x := F32.mul x (F32.of_f64 exposure) in
  let x := F32.mul x (F32.of_f64 gain) in
  let x := if tune_video.py_ne contrast (F64.of_Z 1)
           then F32.add (F32.of_f64 (F64.of_Z 128))
                  (F32.mul (F32.sub x (F32.of_f64 (F64.of_Z 128)))
                           (F32.of_f64 contrast))
           else x in
  let x := if tune_video.py_ne gamma (F64.of_Z 1)
           then F32.mul (powf (tune_video.gamma_base x)
                           (F32.of_f64 (F64.div (F64.of_Z 1) gamma)))
                        (F32.of_f64 (F64.of_Z 255))
           else x in
  np.astype_uint8 (np.clip x 0 255).

(** A Python float whose [float32] value is a number (zero or finite). *)
Definition finite32 (x : spec_float) : Prop :=
  match F32.of_f64 x with
  | S754_zero _ | S754_finite _ _ _ => True
  | _ => False
  end.

(** A float that is not zero (Python's [x != 0.0]). *)
Definition nonzero (x : spec_float) : Prop :=
  F64.eqb x (S754_zero false) = false.

(** ** Gray-world equalisation, as the specification words it *)

Module gray_world.
Section contract.
Variable powf : spec_float → spec_float → spec_float.
Variable np_mean2 : list (list spec_float) → spec_float.
Variable np_mean1 : list spec_float → spec_float.

Definition power : spec_float := F64.of_Z 6.
Definition epsilon : spec_float := F64.dec 1 6.

(** [m_c = (mean_over_pixels(pixel_c ^ power) + epsilon) ^ (1/power)],
    for the channel selected by [c]. *)
Definition power_mean (c : px Z → Z) (im : image Z) : spec_float :=
  powf (F32.add
          (np_mean2 (map (map (λ q, powf (F32.of_Z (c q))
                                         (F32.of_f64 power))) im))
          (F32.of_f64 epsilon))
       (F32.of_f64 (F64.div (F64.of_Z 1) power)).

(** [target = mean(m_c over channels)]. *)
Definition target (im : image Z) : spec_float :=
  np_mean1 [power_mean ch0 im; power_mean ch1 im; power_mean ch2 im].

(** [s_c = target / (m_c + epsilon)]. *)
Definition scale (c : px Z → Z) (im : image Z) : spec_float :=
  F32.div (target im) (F32.add (power_mean c im) (F32.of_f64 epsilon)).

(** Output sample: [clip(input * s_c, 0, 255)], truncated to 8 bits. *)
Definition out_sample (c : px Z → Z) (im : image Z) (q : px Z) : Z :=
  np.astype_uint8 (np.clip (F32.mul (F32.of_Z (c q)) (scale c im)) 0 255).

Definition equalise (im : image Z) : image Z :=
  map (map (λ q, Px (out_sample ch0 im q) (out_sample ch1 im q)
                    (out_sample ch2 im q))) im.
End contract.
End gray_world.

(** The scale vector that [color.color_fix] computes for an image (its
    local [scale]). *)
Definition color_fix_scale (powf : spec_float → spec_float → spec_float)
    (np_mean2 : list (list spec_float) → spec_float)
    (np_mean1 : list spec_float → spec_float) (im : image Z)
  : px spec_float :=
  let m := px_map (λ s, powf (F32.add s (F32.of_f64 (F64.dec 1 6)))
                          (F32.of_f64 (F64.div (F64.of_Z 1) (F64.of_Z 6))))
             (color.mean_axis01 np_mean2
                (img_map (λ x, powf x (F32.of_f64 (F64.of_Z 6)))
                   (np.astype_float32 im))) in
  px_map (λ mc, F32.div (color.mean_px np_mean1 m)
                  (F32.add mc (F32.of_f64 (F64.dec 1 6)))) m.





(** ** Reference values for the numeric examples *)

Module reference.
(** A left-to-right mean in [float32]: the sum, then one division by
    the number of terms. *)
Definition mean1 (l : list spec_float) : spec_float :=
  F32.div (foldl F32.add (S754_zero false) l)
          (F32.of_Z (Z.of_nat (length l))).
Definition mean2 (plane : list (list spec_float)) : spec_float :=
  mean1 (concat plane).

Definition six : spec_float := F32.of_f64 (F64.of_Z 6).
Definition sixth : spec_float :=
  F32.of_f64 (F64.div (F64.of_Z 1) (F64.of_Z 6)).

(** The exact sixth power, rounded once. *)
Definition pow6 (x : spec_float) : spec_float :=
  match x with
  | S754_finite _ m e => binary_normalize F32.prec F32.emax
                           (Z.pos m ^ 6) (6 * e) false
  | S754_zero _ => S754_zero false
  | S754_infinity _ => S754_infinity false
  | S754_nan => S754_nan
  end.

(** [x ^ float32(1/6)] rounded to nearest, at the arguments the
    examples reach:
      274941995909120 (the rounded 255^6)  ->  255.00004578,
        and the same for its two neighbouring floats,
      float32(1e-6)                        ->  0.099999994,
      1.00000095 (1 + float32(1e-6))       ->  1.00000012. *)
Definition root6_table : list (spec_float * spec_float) :=
  [(S754_finite false 16387820 24, S754_finite false 16711683 (-16));
   (S754_finite false 16387819 24, S754_finite false 16711683 (-16));
   (S754_finite false 16387821 24, S754_finite false 16711683 (-16));
   (S754_finite false 8796093 (-43), S754_finite false 13421772 (-27));
   (S754_finite false 8388616 (-23), S754_finite false 8388609 (-23))].

Definition same (x y : spec_float) : bool :=
  match x, y with
  | S754_finite s m e, S754_finite s' m' e' =>
      Bool.eqb s s' && Pos.eqb m m' && Z.eqb e e'
  | _, _ => false
  end.

Fixpoint lookup (x : spec_float) (t : list (spec_float * spec_float))
  : spec_float :=
  match t with
  | [] => S754_nan
  | (k, v) :: t' => if same x k then v else lookup x t'
  end.

(** The power function on the calls of the examples. *)
Definition powf (x y : spec_float) : spec_float :=
  if same y six then pow6 x
  else if same y sixth then lookup x root6_table
  else S754_nan.
End reference.

(** [within_ulps k m e x]: the float [x] is [m * 2^e] up to [k] units in
    the last place. *)
Definition within_ulps (k : Z) (m : positive) (e : Z) (x : spec_float) : Prop :=
  ∃ j, - k ≤ j ≤ k ∧ x = S754_finite false (Z.to_pos (Z.pos m + j)) e.

(** ** In-place jobs of [color.process_one] *)

Section job_notions.
Variable content : Type.
Variable cv2_VideoCapture : content → cv2.capture cv2.ndarray.

(** The source of the job decodes no frame: if the file is there, the
    first read of its capture fails. *)
Definition decodes_no_frame (fpath : pathlib.path)
    (fs : gmap pathlib.path content) : Prop :=
  ∀ c, fs !! fpath = Some c →
       yielded (cv2.cap_reads (cv2_VideoCapture c)) = [].

(** The job gets as far as opening its writer: the file is there, the
    capture opens and reports a positive size. *)
Definition writer_started (fpath : pathlib.path)
    (fs : gmap pathlib.path content) : Prop :=
  ∃ c, fs !! fpath = Some c
       ∧ cv2.cap_opened (cv2_VideoCapture c) = true
       ∧ 0 < cv2.cap_width (cv2_VideoCapture c)
       ∧ 0 < cv2.cap_height (cv2_VideoCapture c).

(** A decoded array as a B, G, R frame (grayscale is replicated). *)
Definition as_bgr (frame : cv2.ndarray) : image Z :=
  match frame with
  | cv2.Gray g => cv2.gray2bgr g
  | cv2.Bgr im => im
  end.

(** The frame rate a job works with: [cap.get(CAP_PROP_FPS) or 30.0]. *)
Definition fps_or_30 (cap : cv2.capture cv2.ndarray) : spec_float :=
  if F64.truthy (cv2.cap_fps cap) then cv2.cap_fps cap else F64.of_Z 30.

Variable cv2_VideoWriter :
  spec_float → Z → Z → list (image Z) → option content.

(** The job on [fpath] decodes at least one frame and its writer leaves
    a file with content [cw] for the processed frames [frames]: the file
    has content [c], opens with a positive size, and its first read
    succeeds. *)
Definition job_writes (fpath : pathlib.path)
    (fs : gmap pathlib.path content) (c cw : content)
    (frames : list (image Z)) : Prop :=
  fs !! fpath = Some c
  ∧ cv2.cap_opened (cv2_VideoCapture c) = true
  ∧ 0 < cv2.cap_width (cv2_VideoCapture c)
  ∧ 0 < cv2.cap_height (cv2_VideoCapture c)
  ∧ frames ≠ []
  ∧ cv2_VideoWriter (fps_or_30 (cv2_VideoCapture c))
      (cv2.cap_width (cv2_VideoCapture c))
      (cv2.cap_height (cv2_VideoCapture c)) frames = Some cw.
End job_notions.

(** The paths a job on [fpath] works with: the file itself, the
    temporary output, the backup, and the temporary file of the
    transcode. *)
Definition job_paths (fpath : pathlib.path) : list pathlib.path :=
  [fpath; pathlib.with_suffix fpath ".tmp.mp4";
   pathlib.with_suffix fpath ".bak.mp4";
   pathlib.with_suffix fpath ".h264.tmp.mp4"].

(** A pixel whose three samples agree. *)
Definition gray_px {A} (q : px A) : Prop := ch0 q = ch1 q ∧ ch1 q = ch2 q.

(** ** Mosaic jobs of [make_teaser.main] *)

(** The least even integer that is not below [x]. *)
Definition ceil_even (x : Z) : Z := x + x `mod` 2.

(** The source files of a mosaic job: both kinds of every folder. *)
Definition job_sources (FOLDERS : list string) : list pathlib.path :=
  name ← FOLDERS;
  kind ← ["cropped_video.mp4"; "inpainted_video.mp4"];
  [pathlib.joinpath (pathlib.joinpath make_teaser.ROOT name) kind].

(** The size of a source that exists and probes to a width and a height
    that are not zero. *)
Definition probed_size (exists_ : pathlib.path → bool)
    (ffprobe : pathlib.path → option (Z * Z * spec_float))
    (p : pathlib.path) : option (Z * Z) :=
  if exists_ p then
    match ffprobe p with
    | Some (w, h, _) =>
        if negb (w =? 0) && negb (h =? 0) then Some (w, h) else None
    | None => None
    end
  else None.

(** How a run of external commands can end: no command is run after one
    that failed.  Every command but the last exited with status 0, and
    [CalledProcessError] is raised exactly when the last one did not. *)
Definition stops_at_first_failure (exit_ok : list string → bool)
    (out : list (list string) * result unit) : Prop :=
  match out.2 with
  | Raise CalledProcessError =>
      ∃ tr cmd, out.1 = tr ++ [cmd]
                ∧ Forall (λ c, exit_ok c = true) tr ∧ exit_ok cmd = false
  | _ => Forall (λ c, exit_ok c = true) out.1
  end.

(** The two ways a sequence of [run] calls can end. *)
Definition run_outcome (exit_ok : list string → bool)
    (out : list (list string) * result unit) : Prop :=
  (out.2 = Ok () ∧ Forall (λ c, exit_ok c = true) out.1)
  ∨ (out.2 = Raise CalledProcessError
     ∧ ∃ tr cmd, out.1 = tr ++ [cmd]
                 ∧ Forall (λ c, exit_ok c = true) tr ∧ exit_ok cmd = false).

(** The files of [inputs] that exist. *)
Definition present {content : Type} (fs : gmap pathlib.path content)
    (inputs : list pathlib.path) : list pathlib.path :=
  filter (λ f, is_Some (fs !! f)) inputs.

(** [x] is the largest element of [xs]. *)
Definition largest (x : Z) (xs : list Z) : Prop :=
  x ∈ xs ∧ ∀ y, y ∈ xs → y ≤ x.
(* ===================================================================== *)
(** * Properties *)
(* ===================================================================== *)

(** ** Arrays *)

Lemma img_map_px_compose {A B C} (f : px A → px B) (g : px B → px C)
    (im : image A) :
  img_map_px g (img_map_px f im) = img_map_px (g ∘ f) im.
Proof.
  unfold img_map_px. rewrite map_map. apply map_ext. intros row.
  apply map_map.
Qed.

Lemma img_map_px_ext_all {A B} (P : A → Prop) (f g : px A → px B)
    (im : image A) :
  (∀ q, px_all P q → f q = g q) →
  img_all P im → img_map_px f im = img_map_px g im.
Proof.
  intros Hfg Him. unfold img_map_px.
  induction Him as [|row im Hrow _ IH]; [done|].
  cbn [map]. f_equal; [|exact IH].
  induction Hrow as [|q row Hq _ IHrow]; [done|].
  cbn [map]. f_equal; [by apply Hfg | exact IHrow].
Qed.

Lemma img_map_px_id_all {A} (P : A → Prop) (f : px A → px A) (im : image A) :
  (∀ q, px_all P q → f q = q) → img_all P im → img_map_px f im = im.
Proof.
  intros Hf Him.
  rewrite (img_map_px_ext_all P f id im Hf Him).
  unfold img_map_px. rewrite <- (map_id im) at 2.
  apply map_ext. intros row. apply map_id.
Qed.

Lemma shape_img_map_px {A B} (f : px A → px B) (im : image A) :
  shape (img_map_px f im) = shape im.
Proof.
  unfold shape, img_map_px. rewrite map_map. apply map_ext. intros row.
  apply length_map.
Qed.

Lemma img_all_img_map {A B} (P : B → Prop) (f : A → B) (im : image A) :
  (∀ x, P (f x)) → img_all P (img_map f im).
Proof.
  intros Hf. unfold img_all, img_map, img_map_px.
  induction im as [|row im IH]; [constructor|].
  cbn [map]. constructor; [|exact IH].
  induction row as [|q row IHrow]; [constructor|].
  cbn [map]. constructor; [|exact IHrow].
  unfold px_all, px_map. cbn. auto.
Qed.

(** A property checked on the 256 sample values holds of every sample. *)
Lemma u8_cases (P : Z → bool) :
  forallb P (seqZ 0 256) = true → ∀ n, u8 n → P n = true.
Proof.
  intros Hall n Hn. rewrite forallb_forall in Hall. apply Hall.
  apply list_elem_of_In, elem_of_seqZ. unfold u8 in Hn. lia.
Qed.

(** ** Clipping and the conversion to [uint8] *)

Lemma astype_uint8_u8 (x : spec_float) : u8 (np.astype_uint8 x).
Proof.
  unfold u8, np.astype_uint8. destruct x; try lia.
  apply Z.mod_pos_bound. lia.
Qed.

Lemma clip_clipped (x : spec_float) : clipped (np.clip x 0 255).
Proof.
  unfold np.clip, np.fmin, np.fmax.
  change (F32.of_Z 0) with (S754_zero false).
  assert (Hz : F32.ltb (S754_zero false) (F32.of_Z 255) = true) by reflexivity.
  assert (Hc : clipped (F32.of_Z 255)) by constructor.
  assert (Hp : ∀ m e, F32.ltb (S754_finite false m e) (F32.of_Z 255) = true →
               clipped (S754_finite false m e)) by (intros; by constructor).
  assert (Hi : F32.ltb (S754_infinity false) (F32.of_Z 255) = false)
    by reflexivity.
  revert Hz Hc Hp Hi. generalize (F32.of_Z 255) as c. intros c Hz Hc Hp Hi.
  destruct x as [s|s| |s m e]; simpl.
  - rewrite Hz. constructor.
  - destruct s; simpl; [rewrite Hz; constructor|].
    by rewrite Hi.
  - constructor.
  - destruct s; simpl; [rewrite Hz; constructor|].
    destruct (F32.ltb (S754_finite false m e) c) eqn:Hlt; auto.
Qed.

Lemma clip_of_clipped (y : spec_float) : clipped y → np.clip y 0 255 = y.
Proof.
  destruct 1 as [| | |m e Hlt]; try reflexivity.
  unfold np.clip, np.fmin, np.fmax.
  change (F32.of_Z 0) with (S754_zero false).
  revert Hlt. generalize (F32.of_Z 255) as c. intros c Hlt.
  simpl. by rewrite Hlt.
Qed.

Lemma clip_idempotent (x : spec_float) :
  np.clip (np.clip x 0 255) 0 255 = np.clip x 0 255.
Proof. apply clip_of_clipped, clip_clipped. Qed.

(** A quotient or product rounded with a positive sign is never below 0. *)
Lemma binary_round_aux_not_negative (prec emax mz ez : Z) (lz : location) :
  SFltb (binary_round_aux prec emax false mz ez lz) (S754_zero false) = false.
Proof.
  unfold binary_round_aux.
  destruct (shr_fexp prec emax mz ez lz) as [mrs e'].
  destruct (shr_fexp prec emax _ e' loc_Exact) as [mrs' e''].
  destruct (shr_m mrs'); [done| |done].
  by destruct (Z.leb e'' (Z.sub emax prec)).
Qed.

(** ** tune_video.apply_adjust *)

Section apply_adjust_properties.
Import tune_video.
Variable powf : spec_float → spec_float → spec_float.

Lemma step_contrast_skipped (img : image spec_float) :
  step_contrast (F64.of_Z 1) img = img.
Proof. reflexivity. Qed.

Lemma step_gamma_skipped (img : image spec_float) :
  step_gamma powf (F64.of_Z 1) img = Ok img.
Proof. reflexivity. Qed.

(** One sample through unit exposure, unit gain, the final clip and the
    conversion back to [uint8]. *)
Lemma unit_sample_id (n : Z) :
  u8 n →
  np.astype_uint8
    (np.clip (F32.mul (F32.mul (F32.of_Z n) (F32.of_f64 (F64.of_Z 1)))
                      (F32.of_f64 (F64.of_Z 1))) 0 255) = n.
Proof.
  intros Hn. apply Z.eqb_eq.
  apply (u8_cases (λ n,
    np.astype_uint8
      (np.clip (F32.mul (F32.mul (F32.of_Z n) (F32.of_f64 (F64.of_Z 1)))
                        (F32.of_f64 (F64.of_Z 1))) 0 255) =? n));
    [|exact Hn].
  vm_compute. reflexivity.
Qed.

(** The base of the power is NaN or lies in [0, 1]: never below 0. *)
Lemma gamma_base_not_negative (x : spec_float) :
  F32.ltb (gamma_base x) F32.zero = false.
Proof.
  unfold gamma_base.
  destruct (clip_clipped x) as [| | |m e _]; try reflexivity.
  replace (F32.of_f64 (F64.of_Z 255)) with (S754_finite false 16711680 (-16))
    by (vm_compute; reflexivity).
  unfold F32.div, SFdiv.
  destruct (SFdiv_core_binary _ _ _ _ _ _) as [[mz ez] lz].
  apply binary_round_aux_not_negative.
Qed.

(** C3. With exposure = contrast = gamma = 1 and gains (1, 1, 1),
    [apply_adjust] returns every 8-bit 3-channel frame unchanged. *)
Theorem apply_adjust_identity (frame : image Z) :
  frame_u8 frame →
  apply_adjust powf frame (F64.of_Z 1) (F64.of_Z 1)
    (F64.of_Z 1, F64.of_Z 1, F64.of_Z 1) (F64.of_Z 1) = Ok frame.
Proof.
  intros Hframe. unfold apply_adjust.
  rewrite step_contrast_skipped, step_gamma_skipped.
  cbn [mbind result_bind mret result_ret]. f_equal.
  unfold step_store, step_gains, step_exposure, np.astype_float32, img_map.
  rewrite !img_map_px_compose.
  apply (img_map_px_id_all u8); [|exact Hframe].
  intros [b g r] (Hb & Hg & Hr). cbn in Hb, Hg, Hr.
  unfold compose, px_map. cbn [ch0 ch1 ch2].
  by rewrite !unit_sample_id.
Qed.

(** C2, as the code has it.  Exposure 1.2, contrast 1.1, gains
    (R, G, B) = (1, 1, 1.3) and gamma 1.0 on the mid-gray pixel: the
    samples are (153.6, 153.6, 153.6) after exposure, blue 199.68 after
    the gains, (156.16, 156.16) and blue 206.848 after contrast, the
    gamma step is skipped, and the stored pixel is red 156, green 156,
    blue 206 (B, G, R in memory, blue first). *)
Theorem apply_adjust_mid_gray :
  let exposure := F64.dec 12 1 in
  let contrast := F64.dec 11 1 in
  let gains := (F64.of_Z 1, F64.of_Z 1, F64.dec 13 1) in
  let gamma := F64.of_Z 1 in
  let tol := (1 # 10000)%Q in
  let after_exposure :=
    step_exposure exposure (np.astype_float32 [[Px 128 128 128]]) in
  let after_gains := step_gains gains after_exposure in
  let after_contrast := step_contrast contrast after_gains in
  (∃ b g r, after_exposure = [[Px b g r]]
     ∧ F32.near b (1536 # 10) tol ∧ F32.near g (1536 # 10) tol
     ∧ F32.near r (1536 # 10) tol)
  ∧ (∃ b g r, after_gains = [[Px b g r]]
     ∧ F32.near b (19968 # 100) tol ∧ F32.near g (1536 # 10) tol
     ∧ F32.near r (1536 # 10) tol)
  ∧ (∃ b g r, after_contrast = [[Px b g r]]
     ∧ F32.near b (206848 # 1000) tol ∧ F32.near g (15616 # 100) tol
     ∧ F32.near r (15616 # 100) tol)
  ∧ step_gamma powf gamma after_contrast = Ok after_contrast
  ∧ apply_adjust powf [[Px 128 128 128]] exposure contrast gains gamma
    = Ok [[Px 206 156 156]].
Proof.
  cbv zeta. repeat split.
  - eexists _, _, _. split; [vm_compute; reflexivity|].
    repeat split; vm_compute; reflexivity.
  - eexists _, _, _. split; [vm_compute; reflexivity|].
    repeat split; vm_compute; reflexivity.
  - eexists _, _, _. split; [vm_compute; reflexivity|].
    repeat split; vm_compute; reflexivity.
Qed.

Lemma shape_img_map {A B} (f : A → B) (im : image A) :
  shape (img_map f im) = shape im.
Proof. apply shape_img_map_px. Qed.

(** The gamma step never raises once [gamma] is not zero, and keeps the
    shape. *)
Lemma step_gamma_total (gamma : spec_float) (img : image spec_float) :
  nonzero gamma →
  ∃ img', step_gamma powf gamma img = Ok img' ∧ shape img' = shape img.
Proof.
  intros Hg. unfold step_gamma, py_truediv.
  destruct (py_ne gamma (F64.of_Z 1)); [|by eexists].
  unfold nonzero in Hg. rewrite Hg. cbn [mbind result_bind mret result_ret].
  eexists. split; [reflexivity|]. by rewrite !shape_img_map.
Qed.

(** The gamma step only calls the power on bases that are not below 0. *)
Lemma step_gamma_independent_of_negative_bases
    (powf' : spec_float → spec_float → spec_float)
    (gamma : spec_float) (img : image spec_float) :
  (∀ b y, F32.ltb b F32.zero = false → powf' b y = powf b y) →
  step_gamma powf' gamma img = step_gamma powf gamma img.
Proof.
  intros Hpow. unfold step_gamma.
  destruct (py_ne gamma (F64.of_Z 1)); [|done].
  destruct (py_truediv (F64.of_Z 1) gamma) as [inv|e]; [|done].
  cbn [mbind result_bind mret result_ret]. f_equal.
  unfold img_map. rewrite !img_map_px_compose.
  unfold img_map_px. apply map_ext. intros row. apply map_ext.
  intros [b g r]. unfold compose, px_map. cbn [ch0 ch1 ch2].
  by rewrite !Hpow by apply gamma_base_not_negative.
Qed.

Lemma apply_adjust_returns (frame : image Z)
    (exposure contrast : spec_float)
    (gains : spec_float * spec_float * spec_float) (gamma : spec_float) :
  nonzero gamma →
  ∃ out, apply_adjust powf frame exposure contrast gains gamma = Ok out.
Proof.
  intros Hg. unfold apply_adjust.
  destruct (step_gamma_total gamma
              (step_contrast contrast
                 (step_gains gains
                    (step_exposure exposure (np.astype_float32 frame)))) Hg)
    as (img' & Hstep & _).
  rewrite Hstep. by eexists.
Qed.

(** C10. For every frame and all parameters with gamma not zero,
    [apply_adjust] returns a buffer of the same shape whose samples are
    8-bit values, and its result does not depend on what the power does
    on bases below 0: the clip before the power keeps them away. *)
Theorem apply_adjust_total_bounded (frame : image Z)
    (exposure contrast : spec_float)
    (gains : spec_float * spec_float * spec_float) (gamma : spec_float) :
  nonzero gamma →
  ∃ out,
    apply_adjust powf frame exposure contrast gains gamma = Ok out
    ∧ shape out = shape frame
    ∧ frame_u8 out
    ∧ ∀ powf' : spec_float → spec_float → spec_float,
        (∀ b y, F32.ltb b F32.zero = false → powf' b y = powf b y) →
        apply_adjust powf' frame exposure contrast gains gamma = Ok out.
Proof.
  intros Hg. unfold apply_adjust.
  set (img := step_contrast contrast
                (step_gains gains
                   (step_exposure exposure (np.astype_float32 frame)))).
  destruct (step_gamma_total gamma img Hg) as (img' & Hstep & Hshape).
  exists (step_store img'). rewrite Hstep.
  cbn [mbind result_bind mret result_ret]. repeat split.
  - unfold step_store. rewrite shape_img_map, Hshape. subst img.
    unfold step_contrast, step_gains, step_exposure, np.astype_float32.
    destruct gains as [[r_gain g_gain] b_gain].
    destruct (py_ne contrast (F64.of_Z 1));
      by rewrite ?shape_img_map, ?shape_img_map_px, ?shape_img_map.
  - unfold step_store, frame_u8. apply img_all_img_map.
    intros x. apply astype_uint8_u8.
  - intros powf' Hpow.
    rewrite (step_gamma_independent_of_negative_bases powf' gamma img Hpow).
    by rewrite Hstep.
Qed.
End apply_adjust_properties.

(** The mid-gray scenario does not end in blue 220, whichever way the
    three samples are ordered. *)
Lemma apply_adjust_mid_gray_not_220 :
  ¬ ∃ powf,
      let out := tune_video.apply_adjust powf [[Px 128 128 128]]
                   (F64.dec 12 1) (F64.dec 11 1)
                   (F64.of_Z 1, F64.of_Z 1, F64.dec 13 1) (F64.of_Z 1) in
      out = Ok [[Px 156 156 220]] ∨ out = Ok [[Px 220 156 156]].
Proof.
  intros (powf & [H|H]); vm_compute in H; discriminate H.
Qed.

Lemma apply_adjust_identity_witness :
  frame_u8 [[Px 0 17 255; Px 128 64 32]]
  ∧ tune_video.apply_adjust (λ _ _, S754_nan) [[Px 0 17 255; Px 128 64 32]]
      (F64.of_Z 1) (F64.of_Z 1) (F64.of_Z 1, F64.of_Z 1, F64.of_Z 1)
      (F64.of_Z 1) = Ok [[Px 0 17 255; Px 128 64 32]].
Proof.
  assert (H : frame_u8 [[Px 0 17 255; Px 128 64 32]]).
  { repeat constructor; cbn; lia. }
  split; [exact H|].
  exact (apply_adjust_identity (λ _ _, S754_nan) _ H).
Defined.

Lemma apply_adjust_total_bounded_witness :
  nonzero (F64.dec 22 1)
  ∧ ∃ out,
      tune_video.apply_adjust (λ x _, x) [[Px 0 17 255]]
        (F64.of_Z (-3)) (F64.of_Z 40) (F64.of_Z 1, F64.of_Z 0, F64.of_Z 2)
        (F64.dec 22 1) = Ok out
      ∧ shape out = [1%nat] ∧ frame_u8 out.
Proof.
  assert (H : nonzero (F64.dec 22 1)) by (vm_compute; reflexivity).
  split; [exact H|].
  destruct (apply_adjust_total_bounded (λ x _, x) [[Px 0 17 255]]
              (F64.of_Z (-3)) (F64.of_Z 40)
              (F64.of_Z 1, F64.of_Z 0, F64.of_Z 2) (F64.dec 22 1) H)
    as (out & Hout & Hshape & Hu8 & _).
  exists out. repeat split; assumption.
Defined.

(** ** tune_video.main: the frame loop *)

Section frame_loop_properties.
Import tune_video.
Variable powf : spec_float → spec_float → spec_float.

(** [adjusted a f o]: [o] is the frame [apply_adjust] returns for [f]
    under the arguments [a]. *)
Local Abbreviation adjusted := (λ (a : args) (f o : image Z),
  apply_adjust powf f (arg_exposure a) (arg_contrast a)
    (arg_r a, arg_g a, arg_b a) (arg_gamma a) = Ok o).

Lemma frame_loop_spec (a : args) (n : nat)
    (reads : list (option (image Z))) (piped : list (list Z)) :
  nonzero (arg_gamma a) →
  ∃ outs,
    frame_loop powf a n reads piped = Ok (piped ++ (np.tobytes <$> outs))
    ∧ Forall2 (adjusted a) (take n (yielded reads)) outs.
Proof.
  intros Hg. revert reads piped.
  induction n as [|n IH]; intros reads piped.
  - exists []. cbn. rewrite app_nil_r. split; [done|constructor].
  - destruct reads as [|[f|] reads'].
    + exists []. cbn. rewrite app_nil_r. split; [done|constructor].
    + cbn [frame_loop cv2.cap_read yielded take].
      destruct (apply_adjust_returns powf f (arg_exposure a)
                  (arg_contrast a) (arg_r a, arg_g a, arg_b a)
                  (arg_gamma a) Hg) as (o & Ho).
      rewrite Ho. cbn [mbind result_bind].
      destruct (IH reads' (piped ++ [np.tobytes o])) as (outs & Hloop & Hall).
      exists (o :: outs). split; [|by constructor].
      rewrite Hloop. by rewrite <- app_assoc.
    + exists []. cbn. rewrite app_nil_r. split; [done|constructor].
Qed.

(** C9. With a reported frame count and a positive limit, the loop
    processes the frames the source yields, in order, up to the smaller
    of the two counts: exactly that many when the source has them, and
    the number actually yielded when it ends earlier, with nothing
    appended and no exception. *)
Theorem main_processes_min_frames (a : args) (cap : cv2.capture (image Z)) :
  cv2.cap_opened cap = true →
  0 < arg_limit a →
  nonzero (arg_gamma a) →
  ∃ run outs,
    main powf a cap = Ok run
    ∧ Forall2 (λ f o,
         apply_adjust powf f (arg_exposure a) (arg_contrast a)
           (arg_r a, arg_g a, arg_b a) (arg_gamma a) = Ok o)
        (take (Z.to_nat (Z.min (cv2.cap_frame_count cap) (arg_limit a)))
           (yielded (cv2.cap_reads cap)))
        outs
    ∧ enc_stdin run = np.tobytes <$> outs
    ∧ length (enc_stdin run)
      = Nat.min (Z.to_nat (Z.min (cv2.cap_frame_count cap) (arg_limit a)))
          (length (yielded (cv2.cap_reads cap))).
Proof.
  intros Hopen Hlimit Hg. unfold main, open_video.
  set (n := Z.to_nat (Z.min (cv2.cap_frame_count cap) (arg_limit a))).
  rewrite Hopen. cbn [negb mbind result_bind mret result_ret].
  assert (Hn : n_frames_of (cv2.cap_frame_count cap) (arg_limit a)
               = Z.min (cv2.cap_frame_count cap) (arg_limit a)).
  { unfold n_frames_of.
    destruct (Z.eqb_spec (arg_limit a) 0); [lia|].
    destruct (Z.ltb_spec 0 (arg_limit a)); [done|lia]. }
  rewrite Hn. fold n.
  destruct (frame_loop_spec a n (cv2.cap_reads cap) [] Hg)
    as (outs & Hloop & Hall).
  rewrite Hloop. cbn [mbind result_bind app].
  eexists _, outs. split; [reflexivity|]. split; [exact Hall|].
  split; [reflexivity|]. cbn [enc_stdin].
  rewrite length_fmap, <- (Forall2_length _ _ _ Hall), length_take.
  reflexivity.
Qed.
End frame_loop_properties.

Lemma main_processes_min_frames_witness :
  ∃ run,
    tune_video.main (λ _ _, S754_nan)
      (tune_video.Args "in.mp4" "out.mp4" (F64.dec 12 1) (F64.dec 11 1)
         (F64.of_Z 1) (F64.of_Z 1) (F64.dec 13 1) (F64.of_Z 1) 2)
      (cv2.Capture true (F64.of_Z 30) 1 1 5
         [Some [[Px 128 128 128]]; Some [[Px 0 0 0]];
          Some [[Px 255 255 255]]]) = Ok run
    ∧ length (tune_video.enc_stdin run) = 2%nat.
Proof.
  destruct (main_processes_min_frames (λ _ _, S754_nan)
    (tune_video.Args "in.mp4" "out.mp4" (F64.dec 12 1) (F64.dec 11 1)
       (F64.of_Z 1) (F64.of_Z 1) (F64.dec 13 1) (F64.of_Z 1) 2)
    (cv2.Capture true (F64.of_Z 30) 1 1 5
       [Some [[Px 128 128 128]]; Some [[Px 0 0 0]];
        Some [[Px 255 255 255]]]))
    as (run & outs & Hrun & _ & _ & Hlen).
  - reflexivity.
  - cbn. lia.
  - vm_compute. reflexivity.
  - exists run. split; [exact Hrun|exact Hlen].
Defined.

(** ** color.color_fix *)

Section color_fix_properties.
Variable powf : spec_float → spec_float → spec_float.
Variable np_mean2 : list (list spec_float) → spec_float.
Variable np_mean1 : list spec_float → spec_float.

Local Abbreviation color_fix := (color.color_fix powf np_mean2 np_mean1).
Local Abbreviation scale_of := (color_fix_scale powf np_mean2 np_mean1).

(** [color_fix] scales every pixel by the same vector. *)
Lemma color_fix_pointwise (im : image Z) :
  color_fix im
  = img_map_px (λ q, px_zip (λ v s, np.astype_uint8
                                (np.clip (F32.mul (F32.of_Z v) s) 0 255))
                       q (scale_of im)) im.
Proof.
  unfold color.color_fix. fold (scale_of im).
  unfold np.astype_float32, img_map. rewrite !img_map_px_compose.
  unfold img_map_px. apply map_ext. intros row. apply map_ext.
  intros [b g r]. unfold compose, px_map, px_zip. cbn [ch0 ch1 ch2].
  by rewrite !clip_idempotent.
Qed.

(** The plane of one channel after the element-wise sixth power. *)
Lemma channel_plane (c : ∀ A, px A → A) (f : spec_float → spec_float)
    (im : image Z) :
  (∀ A B (g : A → B) (q : px A), c B (px_map g q) = g (c A q)) →
  map (map (c spec_float)) (img_map f (np.astype_float32 im))
  = map (map (λ q, f (F32.of_Z (c Z q)))) im.
Proof.
  intros Hc. unfold np.astype_float32, img_map, img_map_px.
  rewrite !map_map. apply map_ext. intros row. rewrite !map_map.
  apply map_ext. intros q. by rewrite !Hc.
Qed.

Lemma scale_of_contract (im : image Z) :
  scale_of im
  = Px (gray_world.scale powf np_mean2 np_mean1 ch0 im)
       (gray_world.scale powf np_mean2 np_mean1 ch1 im)
       (gray_world.scale powf np_mean2 np_mean1 ch2 im).
Proof.
  unfold color_fix_scale, gray_world.scale, gray_world.target,
    gray_world.power_mean, gray_world.power, gray_world.epsilon,
    color.mean_axis01, color.mean_px, px_map.
  cbn [ch0 ch1 ch2].
  rewrite (channel_plane (@ch0)), (channel_plane (@ch1)),
    (channel_plane (@ch2)) by done.
  reflexivity.
Qed.

(** C1. For every 3-channel 8-bit frame, [color_fix] returns the frame
    of the contract: per-channel power mean with power 6.0 and epsilon
    1e-6, the mean of the three as target, scale target / (m_c +
    epsilon), each sample multiplied by its scale, clipped to [0, 255]
    and truncated to 8 bits. *)
Theorem color_fix_meets_contract (im : image Z) :
  color_fix im = gray_world.equalise powf np_mean2 np_mean1 im.
Proof.
  rewrite color_fix_pointwise, scale_of_contract.
  unfold gray_world.equalise, gray_world.out_sample, img_map_px, px_zip.
  reflexivity.
Qed.

(** A sample of value 0 stays 0 under any scale. *)
Lemma zero_sample_fixed (s : spec_float) :
  np.astype_uint8 (np.clip (F32.mul (F32.of_Z 0) s) 0 255) = 0.
Proof.
  change (F32.of_Z 0) with (S754_zero false).
  destruct s as [[]|[]| |[] m e]; reflexivity.
Qed.





Local Abbreviation scale_c := (gray_world.scale powf np_mean2 np_mean1).
Local Abbreviation out_c := (gray_world.out_sample powf np_mean2 np_mean1).



End color_fix_properties.



(** The blue example does not hinge on the last bits of the library
    functions: any power within one unit in the last place of 255^6 and
    two of the sixth roots, and either order of adding the three channel
    means, gives blue 85. *)
Lemma color_fix_flat_blue_stable
    (powf : spec_float → spec_float → spec_float)
    (np_mean2 : list (list spec_float) → spec_float)
    (np_mean1 : list spec_float → spec_float) :
  within_ulps 1 16387820 24 (powf (F32.of_Z 255) reference.six) →
  powf (F32.of_Z 0) reference.six = S754_zero false →
  (∀ v, within_ulps 1 16387820 24 v ∨ v = S754_zero false →
        np_mean2 [[v; v]; [v; v]] = v) →
  (∀ v, within_ulps 1 16387820 24 v →
        within_ulps 2 16711683 (-16)
          (powf (F32.add v (F32.of_f64 (F64.dec 1 6))) reference.sixth)) →
  within_ulps 2 13421772 (-27)
    (powf (F32.add (S754_zero false) (F32.of_f64 (F64.dec 1 6)))
       reference.sixth) →
  (∀ a b c, np_mean1 [a; b; c]
            = F32.div (F32.add (F32.add a b) c) (F32.of_Z 3)
            ∨ np_mean1 [a; b; c]
              = F32.div (F32.add a (F32.add b c)) (F32.of_Z 3)) →
  color.color_fix powf np_mean2 np_mean1
    [[Px 255 0 0; Px 255 0 0]; [Px 255 0 0; Px 255 0 0]]
  = [[Px 85 0 0; Px 85 0 0]; [Px 85 0 0; Px 85 0 0]].
Proof.
  intros H6 H0 Hm2 Hr0 Hr1 Hm1.
  rewrite color_fix_pointwise, scale_of_contract.
  unfold gray_world.scale, gray_world.target, gray_world.power_mean.
  change (F32.of_f64 gray_world.power) with reference.six.
  change (F32.of_f64 (F64.div (F64.of_Z 1) gray_world.power))
    with reference.sixth.
  cbn [map ch0 ch1 ch2].
  rewrite !H0, (Hm2 _ (or_introl H6)), (Hm2 _ (or_intror eq_refl)).
  specialize (Hr0 _ H6).
  change gray_world.epsilon with (F64.dec 1 6).
  destruct Hr0 as (j0 & Hj0 & ->). destruct Hr1 as (j1 & Hj1 & ->).
  assert (Hc0 : j0 = -2 ∨ j0 = -1 ∨ j0 = 0 ∨ j0 = 1 ∨ j0 = 2) by lia.
  assert (Hc1 : j1 = -2 ∨ j1 = -1 ∨ j1 = 0 ∨ j1 = 1 ∨ j1 = 2) by lia.
  clear Hj0 Hj1 H6 H0 Hm2.
  match goal with
  | |- context [np_mean1 [?a; ?b; ?c]] => destruct (Hm1 a b c) as [-> | ->]
  end;
    destruct Hc0 as [-> | [-> | [-> | [-> | ->]]]];
    destruct Hc1 as [-> | [-> | [-> | [-> | ->]]]];
    vm_compute; reflexivity.
Qed.

(** The reference functions are within these tolerances. *)
Lemma reference_within_tolerance :
  within_ulps 1 16387820 24 (reference.powf (F32.of_Z 255) reference.six)
  ∧ reference.powf (F32.of_Z 0) reference.six = S754_zero false
  ∧ (∀ v, within_ulps 1 16387820 24 v ∨ v = S754_zero false →
          reference.mean2 [[v; v]; [v; v]] = v)
  ∧ (∀ v, within_ulps 1 16387820 24 v →
          within_ulps 2 16711683 (-16)
            (reference.powf (F32.add v (F32.of_f64 (F64.dec 1 6)))
               reference.sixth))
  ∧ within_ulps 2 13421772 (-27)
      (reference.powf (F32.add (S754_zero false) (F32.of_f64 (F64.dec 1 6)))
         reference.sixth).
Proof.
  repeat split.
  - exists 0. split; [lia|]. vm_compute. reflexivity.
  - intros v [(j & Hj & ->) | ->]; [|vm_compute; reflexivity].
    assert (Hc : j = -1 ∨ j = 0 ∨ j = 1) by lia.
    destruct Hc as [-> | [-> | ->]]; vm_compute; reflexivity.
  - intros v (j & Hj & ->).
    assert (Hc : j = -1 ∨ j = 0 ∨ j = 1) by lia.
    destruct Hc as [-> | [-> | ->]]; exists 0; (split; [lia|]);
      vm_compute; reflexivity.
  - exists 0. split; [lia|]. vm_compute. reflexivity.
Qed.

(** ** pathlib *)

Lemma string_length_app (s1 s2 : string) :
  String.length (s1 +:+ s2) = (String.length s1 + String.length s2)%nat.
Proof. induction s1 as [|a s1 IH]; simpl; [done|by f_equal]. Qed.

Lemma rfind_app (c : ascii) (s1 s2 : string) (j : nat) :
  pathlib.rfind c s2 = Some j →
  pathlib.rfind c (s1 +:+ s2) = Some (String.length s1 + j)%nat.
Proof.
  intros Hj. induction s1 as [|a s1 IH]; simpl; [done|by rewrite IH].
Qed.

Lemma string_length_substring (s : string) (n m : nat) :
  (n + m ≤ String.length s)%nat → String.length (substring n m s) = m.
Proof.
  revert n m. induction s as [|a s IH]; intros n m Hle; cbn in Hle.
  - assert (n = 0%nat) as -> by lia. assert (m = 0%nat) as -> by lia. done.
  - destruct n as [|n].
    + destruct m as [|m]; [done|]. cbn. rewrite IH; [done|lia].
    + cbn. apply IH. lia.
Qed.

(** The name [with_suffix] builds ends in the new suffix, after the stem
    of the old name. *)
Lemma with_suffix_name (p : pathlib.path) (new_suffix : string) :
  ∃ stem, pathlib.with_suffix p new_suffix = (p.1, stem +:+ new_suffix)
    ∧ (pathlib.rfind "." p.2 = None
       ∨ String.length p.2 ≤ String.length stem
       ∨ pathlib.rfind "." p.2 = Some (String.length stem))%nat.
Proof.
  unfold pathlib.with_suffix, pathlib.suffix.
  destruct (pathlib.rfind "." p.2) as [i|] eqn:Hi.
  - destruct ((0 <? i)%nat && (i <? String.length p.2 - 1)%nat) eqn:Hc.
    + apply andb_true_iff in Hc as [_ Hlt%Nat.ltb_lt].
      assert (Hlen : String.length
                (substring i (String.length p.2 - i) p.2)
              = (String.length p.2 - i)%nat)
        by (apply string_length_substring; lia).
      destruct (decide (substring i (String.length p.2 - i) p.2 = ""))
        as [He|_].
      { rewrite He in Hlen. cbn in Hlen. lia. }
      eexists. split; [reflexivity|]. right. right. f_equal.
      rewrite Hlen.
      replace (String.length p.2 - (String.length p.2 - i))%nat with i by lia.
      symmetry. apply string_length_substring. lia.
    + rewrite decide_True by done. eexists. split; [reflexivity|].
      right. left. done.
  - rewrite decide_True by done. eexists. split; [reflexivity|]. by left.
Qed.

(** A new suffix with a dot after its first character never rebuilds the
    old path: the temporary and backup paths differ from the original. *)
Lemma with_suffix_ne (p : pathlib.path) (new_suffix : string) (j : nat) :
  pathlib.rfind "." new_suffix = Some (S j) →
  pathlib.with_suffix p new_suffix ≠ p.
Proof.
  intros Hj Heq.
  destruct (with_suffix_name p new_suffix) as (stem & Hname & Hstem).
  rewrite Hname in Heq. destruct p as [parent name]. cbn in *.
  injection Heq as Heq.
  assert (Hlen : String.length name
                 = (String.length stem + String.length new_suffix)%nat)
    by (by rewrite <- Heq at 1; rewrite string_length_app).
  pose proof (rfind_app "." stem new_suffix _ Hj) as Hr.
  rewrite Heq in Hr. rewrite Hr in Hstem.
  destruct new_suffix; [done|]. cbn in Hlen.
  destruct Hstem as [?|[?|?]]; [done|lia|]. simplify_eq. lia.
Qed.

(** ** color.process_one *)

Section process_one_properties.
Variable powf : spec_float → spec_float → spec_float.
Variable np_mean2 : list (list spec_float) → spec_float.
Variable np_mean1 : list spec_float → spec_float.
Variable content : Type.
Variable cv2_VideoCapture : content → cv2.capture cv2.ndarray.
Variable cv2_VideoWriter :
  spec_float → Z → Z → list (image Z) → option content.
Variable has_ffmpeg_on_path : bool.
Variable ffprobe_size : content → option (Z * Z).
Variable ffmpeg_h264 : bool → content → option content * bool.

Local Abbreviation process_one :=
  (color.process_one powf np_mean2 np_mean1 content cv2_VideoCapture
     cv2_VideoWriter has_ffmpeg_on_path ffprobe_size ffmpeg_h264).

Lemma read_loop_length (reads : list (option cv2.ndarray)) :
  length (color.read_loop powf np_mean2 np_mean1 reads)
  = length (yielded reads).
Proof.
  induction reads as [|[frame|] reads IH]; cbn; [done| |done].
  by rewrite IH.
Qed.

(** C5. When the source of an in-place job decodes no frame, the job
    returns [False], the original file is untouched (and so is every
    path other than the temporary one), and the temporary output is
    gone once the writer had been opened. *)
Theorem process_one_no_frames (fpath : pathlib.path)
    (fs : gmap pathlib.path content) :
  decodes_no_frame content cv2_VideoCapture fpath fs →
  ∃ fs',
    process_one fpath fs = (fs', Ok false)
    ∧ fs' !! fpath = fs !! fpath
    ∧ (∀ p, p ≠ pathlib.with_suffix fpath ".tmp.mp4" →
            fs' !! p = fs !! p)
    ∧ (writer_started content cv2_VideoCapture fpath fs →
       fs' !! pathlib.with_suffix fpath ".tmp.mp4" = None).
Proof.
  intros Hnone. unfold color.process_one.
  assert (Hskip : ∀ c, fs !! fpath = Some c →
            ¬ (cv2.cap_opened (cv2_VideoCapture c) = true
               ∧ 0 < cv2.cap_width (cv2_VideoCapture c)
               ∧ 0 < cv2.cap_height (cv2_VideoCapture c)) →
            ¬ writer_started content cv2_VideoCapture fpath fs).
  { intros c Hc Hnot (c' & Hc' & Hstart). simplify_eq. by apply Hnot. }
  destruct (fs !! fpath) as [c|] eqn:Hc.
  2:{ exists fs. split; [done|]. split; [done|]. split; [done|].
      intros (c' & Hc' & _). congruence. }
  specialize (Hnone c Hc).
  destruct (cv2.cap_opened (cv2_VideoCapture c)) eqn:Hopen; cbn [negb].
  2:{ exists fs. split; [done|]. split; [done|]. split; [done|].
      intros Hs. exfalso. apply (Hskip c eq_refl); [|done].
      intros [? _]. congruence. }
  destruct ((cv2.cap_width (cv2_VideoCapture c) <=? 0)
            || (cv2.cap_height (cv2_VideoCapture c) <=? 0)) eqn:Hsize.
  { exists fs. split; [done|]. split; [done|]. split; [done|].
    intros Hs. exfalso. apply (Hskip c eq_refl); [|done].
    intros (_ & Hw & Hh). apply orb_true_iff in Hsize as [H|H];
      apply Z.leb_le in H; lia. }
  assert (Hzero : color.read_loop powf np_mean2 np_mean1
                    (cv2.cap_reads (cv2_VideoCapture c)) = []).
  { apply length_zero_iff_nil. by rewrite read_loop_length, Hnone. }
  rewrite Hzero. cbn [length Nat.eqb].
  assert (Hne : pathlib.with_suffix fpath ".tmp.mp4" ≠ fpath)
    by (by apply (with_suffix_ne fpath ".tmp.mp4" 3)).
  set (tmp := pathlib.with_suffix fpath ".tmp.mp4") in *.
  eexists. split; [reflexivity|]. unfold color.unlink.
  destruct (cv2_VideoWriter _ _ _ []) as [c'|].
  - split; [|split].
    + rewrite lookup_delete_ne, lookup_insert_ne by done. done.
    + intros p Hp. by rewrite lookup_delete_ne, lookup_insert_ne.
    + intros _. apply lookup_delete_eq.
  - split; [|split].
    + by rewrite lookup_delete_ne.
    + intros p Hp. by rewrite lookup_delete_ne.
    + intros _. apply lookup_delete_eq.
Qed.
End process_one_properties.

(** ** Python's [x / 2.0] on integers below 2^53 *)

Lemma digits2_pos_bounds (p : positive) :
  2 ^ (Z.pos (digits2_pos p) - 1) ≤ Z.pos p < 2 ^ Z.pos (digits2_pos p).
Proof.
  induction p as [p IH|p IH|]; cbn [digits2_pos].
  - rewrite Pos2Z.inj_succ.
    replace (Z.succ (Z.pos (digits2_pos p)) - 1) with (Z.succ (Z.pos (digits2_pos p) - 1)) by lia.
    rewrite !Z.pow_succ_r by lia. lia.
  - rewrite Pos2Z.inj_succ.
    replace (Z.succ (Z.pos (digits2_pos p)) - 1) with (Z.succ (Z.pos (digits2_pos p) - 1)) by lia.
    rewrite !Z.pow_succ_r by lia. lia.
  - cbn. lia.
Qed.

Lemma iter_xO_spec (p k : positive) :
  Z.pos (Pos.iter xO p k) = Z.pos p * 2 ^ Z.pos k
  ∧ digits2_pos (Pos.iter xO p k) = (digits2_pos p + k)%positive.
Proof.
  induction k as [|k IH] using Pos.peano_ind.
  - cbn [Pos.iter]. split; [lia|]. cbn [digits2_pos]. lia.
  - rewrite Pos.iter_succ. destruct IH as [IH1 IH2]. split.
    + rewrite Pos2Z.inj_xO, IH1, Pos2Z.inj_succ, Z.pow_succ_r by lia. lia.
    + cbn [digits2_pos]. rewrite IH2. lia.
Qed.

(** Rounding a 53-digit mantissa within the exponent range changes nothing. *)
Lemma binary_round_aux_exact (s : bool) (m : positive) (e : Z) :
  Z.pos (digits2_pos m) = 53 → -1074 ≤ e ≤ 971 →
  binary_round_aux 53 1024 s (Z.pos m) e loc_Exact = S754_finite s m e.
Proof.
  intros Hd He.
  assert (Hshr : shr_fexp 53 1024 (Z.pos m) e loc_Exact
                 = (Build_shr_record (Z.pos m) false false, e)).
  { unfold shr_fexp, fexp, emin. cbn [Zdigits2 shr_record_of_loc]. rewrite Hd.
    replace (Z.sub (Z.max (Z.sub (Z.add 53 e) 53) (Z.sub (Z.sub 3 1024) 53)) e)
      with 0 by lia.
    reflexivity. }
  unfold binary_round_aux. rewrite Hshr.
  cbn [shr_m loc_of_shr_record round_nearest_even]. rewrite Hshr.
  cbn [shr_m].
  replace (Z.leb e (Z.sub 1024 53)) with true by (symmetry; apply Z.leb_le; lia).
  reflexivity.
Qed.

Lemma binary_round_aux_exact_even (s : bool) (m : positive) (e : Z) :
  Z.pos (digits2_pos m) = 53 → -1075 ≤ e ≤ 970 →
  binary_round_aux 53 1024 s (Z.pos m~0) e loc_Exact = S754_finite s m (e + 1).
Proof.
  intros Hd He.
  assert (Hshr : shr_fexp 53 1024 (Z.pos m~0) e loc_Exact
                 = (Build_shr_record (Z.pos m) false false, e + 1)).
  { unfold shr_fexp, fexp, emin. cbn [Zdigits2 shr_record_of_loc digits2_pos].
    rewrite Pos2Z.inj_succ, Hd.
    replace (Z.sub (Z.max (Z.sub (Z.add (Z.succ 53) e) 53)
                          (Z.sub (Z.sub 3 1024) 53)) e)
      with 1 by lia.
    reflexivity. }
  unfold binary_round_aux. rewrite Hshr.
  cbn [shr_m loc_of_shr_record round_nearest_even].
  assert (E2 : shr_fexp 53 1024 (Z.pos m) (e + 1) loc_Exact
               = (Build_shr_record (Z.pos m) false false, e + 1)).
  { unfold shr_fexp, fexp, emin. cbn [Zdigits2 shr_record_of_loc]. rewrite Hd.
    replace (Z.sub (Z.max (Z.sub (Z.add 53 (e + 1)) 53) (Z.sub (Z.sub 3 1024) 53)) (e + 1))
      with 0 by lia.
    reflexivity. }
  rewrite E2. cbn [shr_m].
  replace (Z.leb (e + 1) (Z.sub 1024 53)) with true by (symmetry; apply Z.leb_le; lia).
  reflexivity.
Qed.

Lemma f64_of_Z_normal (x : Z) :
  0 < x < 2 ^ 53 →
  ∃ mz ez, F64.of_Z x = S754_finite false mz ez
    ∧ Z.pos (digits2_pos mz) = 53 ∧ -52 ≤ ez ≤ 0
    ∧ Z.pos mz = x * 2 ^ (- ez).
Proof.
  intros Hx. destruct x as [|p|p]; try lia.
  pose proof (digits2_pos_bounds p) as Hd.
  assert (Hd53 : Z.pos (digits2_pos p) ≤ 53).
  { destruct (Z_le_gt_dec (Z.pos (digits2_pos p)) 53) as [|Hgt]; [done|].
    exfalso. assert (2 ^ 53 ≤ 2 ^ (Z.pos (digits2_pos p) - 1))
      by (apply Z.pow_le_mono_r; lia). lia. }
  unfold F64.of_Z, F64.prec, F64.emax, binary_normalize, binary_round, shl_align, fexp, emin.
  replace (Z.sub (Z.max (Z.sub (Z.add (Z.pos (digits2_pos p)) 0) 53)
                        (Z.sub (Z.sub 3 1024) 53)) 0)
    with (Z.pos (digits2_pos p) - 53) by lia.
  replace (Z.max (Z.sub (Z.add (Z.pos (digits2_pos p)) 0) 53)
                 (Z.sub (Z.sub 3 1024) 53))
    with (Z.pos (digits2_pos p) - 53) by lia.
  destruct (Z.pos (digits2_pos p) - 53) as [|k|k] eqn:Hk; try lia.
  - exists p, 0. split; [apply binary_round_aux_exact; lia|].
    split; [lia|]. split; [lia|]. cbn. lia.
  - destruct (iter_xO_spec p k) as [Hv Hdig].
    exists (Pos.iter xO p k), (Z.neg k).
    split; [apply binary_round_aux_exact; [rewrite Hdig|]; lia|].
    split; [rewrite Hdig; lia|]. split; [lia|].
    rewrite Hv. reflexivity.
Qed.

Lemma f64_div_by_two (mz : positive) (ez : Z) :
  Z.pos (digits2_pos mz) = 53 → -52 ≤ ez ≤ 0 →
  F64.div (S754_finite false mz ez) (F64.of_Z 2)
  = S754_finite false mz (ez - 1).
Proof.
  intros Hd He.
  change (F64.of_Z 2) with (S754_finite false 4503599627370496 (-51)).
  unfold F64.div, F64.prec, F64.emax, SFdiv, SFdiv_core_binary, fexp, emin.
  cbn [Zdigits2]. rewrite Hd.
  change (Z.pos (digits2_pos 4503599627370496)) with 53.
  replace (Z.min (Z.max (Z.sub (Z.sub (Z.add 53 ez) (Z.add 53 (-51))) 53)
                        (Z.sub (Z.sub 3 1024) 53)) (Z.sub ez (-51)))
    with (ez - 2) by lia.
  replace (Z.sub (Z.sub ez (-51)) (ez - 2)) with 53 by lia.
  cbv iota beta.
  assert (Hdiv : Z.div_eucl (Z.shiftl (Z.pos mz) 53) 4503599627370496
                 = (Z.pos mz~0, 0)).
  { rewrite Z.shiftl_mul_pow2 by lia.
    pose proof (Z_div_mod (Z.pos mz * 2 ^ 53) 4503599627370496 ltac:(lia)) as H.
    destruct (Z.div_eucl (Z.pos mz * 2 ^ 53) 4503599627370496) as [q r].
    destruct H as [H1 H2].
    change (2 ^ 53) with (2 * 4503599627370496) in H1.
    assert (q = Z.pos mz~0) by nia. subst q. f_equal. lia. }
  rewrite Hdiv. change (xorb false false) with false.
  change (new_location 4503599627370496 0) with loc_Exact.
  rewrite binary_round_aux_exact_even by lia. f_equal. lia.
Qed.

(** ** make_teaser.even *)

Lemma ceil_even_spec (x : Z) :
  Z.even (ceil_even x) = true ∧ x ≤ ceil_even x < x + 2
  ∧ (Z.even x = true → ceil_even x = x).
Proof.
  unfold ceil_even. pose proof (Z.mod_pos_bound x 2 ltac:(lia)) as Hm.
  split; [|split; [lia|]].
  - rewrite Z.even_spec. exists (x / 2 + x `mod` 2).
    pose proof (Z.div_mod x 2 ltac:(lia)). lia.
  - intros He%Z.even_spec. destruct He as [k ->].
    replace (2 * k) with (k * 2) by lia. rewrite Z.mod_mul by lia. lia.
Qed.

(** Below 2^53 the float division is exact, and [even] rounds up to the
    next even integer. *)
Lemma even_exact (x : Z) :
  0 ≤ x < 2 ^ 53 → make_teaser.even (Some x) = Ok (ceil_even x).
Proof.
  intros Hx. unfold make_teaser.even, ceil_even.
  destruct (decide (x = 0)) as [->|Hne]; [reflexivity|].
  destruct (f64_of_Z_normal x ltac:(lia)) as (mz & ez & -> & Hd & He & Hmz).
  rewrite f64_div_by_two by done.
  unfold F64.ceil.
  replace (0 <=? ez - 1) with false by (symmetry; apply Z.leb_gt; lia).
  cbn [mbind result_bind mret result_ret]. f_equal.
  replace (Z.neg mz) with (- Z.pos mz) by lia. rewrite Hmz.
  replace (- (ez - 1)) with (Z.succ (- ez)) by lia.
  rewrite Z.pow_succ_r by lia.
  replace (- (x * 2 ^ (- ez))) with ((- x) * 2 ^ (- ez)) by lia.
  assert (Hpow : 0 < 2 ^ (- ez)) by (apply Z.pow_pos_nonneg; lia).
  rewrite Z.div_mul_cancel_r by lia.
  pose proof (Z.div_mod (- x) 2 ltac:(lia)).
  pose proof (Z.mod_pos_bound (- x) 2 ltac:(lia)).
  pose proof (Z.div_mod x 2 ltac:(lia)).
  pose proof (Z.mod_pos_bound x 2 ltac:(lia)).
  lia.
Qed.

(** ** make_teaser.main: the tile size *)

Lemma py_max_largest (x : Z) (xs : list Z) :
  largest (make_teaser.py_max x xs) (x :: xs).
Proof.
  unfold make_teaser.py_max, largest. revert x.
  induction xs as [|y xs IH]; intros x; cbn [foldl].
  - split; [by left|]. intros y Hy. apply list_elem_of_singleton in Hy. lia.
  - destruct (IH (Z.max x y)) as [Hin Hle]. split.
    + apply elem_of_cons in Hin as [Heq|Hin].
      * rewrite Heq. destruct (Z.max_spec x y) as [[_ ->]|[_ ->]].
        -- right. by left.
        -- by left.
      * right. by right.
    + intros z Hz.
      assert (Z.max x y ≤ foldl Z.max (Z.max x y) xs)
        by (apply Hle; by left).
      apply elem_of_cons in Hz as [->|Hz]; [lia|].
      apply elem_of_cons in Hz as [->|Hz]; [lia|].
      apply Hle. by right.
Qed.

Section tile_size_properties.
Variable FOLDERS : list string.
Variable exists_ : pathlib.path → bool.
Variable ffprobe : pathlib.path → option (Z * Z * spec_float).

(** The sizes [main] collects are those of the probed sources, in the
    order of the job. *)
Lemma collect_sizes :
  (make_teaser.collect FOLDERS exists_ ffprobe).1
  = omap (probed_size exists_ ffprobe) (job_sources FOLDERS).
Proof.
  unfold make_teaser.collect. fold (job_sources FOLDERS).
  generalize (job_sources FOLDERS) as paths. intros paths.
  enough (H : ∀ acc,
    (foldl (make_teaser.collect_step exists_ ffprobe) acc paths).1
    = acc.1 ++ omap (probed_size exists_ ffprobe) paths)
    by apply (H ([], [])).
  induction paths as [|p paths IH]; intros [sizes durs].
  - cbn. by rewrite app_nil_r.
  - change (foldl (make_teaser.collect_step exists_ ffprobe)
              (sizes, durs) (p :: paths))
      with (foldl (make_teaser.collect_step exists_ ffprobe)
              (make_teaser.collect_step exists_ ffprobe (sizes, durs) p)
              paths).
    rewrite IH.
    change (omap (probed_size exists_ ffprobe) (p :: paths))
      with (match probed_size exists_ ffprobe p with
            | Some y => y :: omap (probed_size exists_ ffprobe) paths
            | None => omap (probed_size exists_ ffprobe) paths
            end).
    unfold make_teaser.collect_step, probed_size,
      make_teaser.get_w_h_dur.
    destruct (exists_ p); [|done].
    destruct (ffprobe p) as [[[w h] d]|]; [|done].
    destruct (negb (w =? 0) && negb (h =? 0)); [|done].
    cbn [fst]. by rewrite <- app_assoc.
Qed.

(** C6. For a mosaic job with at least one probed source, the tile
    size is computed from the largest width and the largest height over
    all probed sources of the job, each rounded up to the next even
    integer: 641 x 361 gives 642 x 362 and even sizes are kept. *)
Theorem tile_size_is_ceil_even_of_max :
  omap (probed_size exists_ ffprobe) (job_sources FOLDERS) ≠ [] →
  Forall (λ wh, 0 < wh.1 < 2 ^ 53 ∧ 0 < wh.2 < 2 ^ 53)
    (omap (probed_size exists_ ffprobe) (job_sources FOLDERS)) →
  ∃ wmax hmax,
    largest wmax
      (fst <$> omap (probed_size exists_ ffprobe) (job_sources FOLDERS))
    ∧ largest hmax
        (snd <$> omap (probed_size exists_ ffprobe) (job_sources FOLDERS))
    ∧ make_teaser.tile_size
        (make_teaser.collect FOLDERS exists_ ffprobe).1
      = Ok (ceil_even wmax, ceil_even hmax)
    ∧ (wmax = 641 → hmax = 361 →
       (ceil_even wmax, ceil_even hmax) = (642, 362))
    ∧ (Z.even wmax = true → ceil_even wmax = wmax)
    ∧ (Z.even hmax = true → ceil_even hmax = hmax).
Proof.
  rewrite collect_sizes.
  generalize (omap (probed_size exists_ ffprobe) (job_sources FOLDERS))
    as sizes.
  intros sizes Hne Hbound.
  destruct sizes as [|[w0 h0] rest]; [done|].
  unfold make_teaser.tile_size.
  pose proof (py_max_largest w0 (fst <$> rest)) as Hw.
  pose proof (py_max_largest h0 (snd <$> rest)) as Hh.
  exists (make_teaser.py_max w0 (fst <$> rest)),
         (make_teaser.py_max h0 (snd <$> rest)).
  split; [exact Hw|]. split; [exact Hh|].
  assert (Hrange : ∀ (f : Z * Z → Z) x,
            (∀ wh, 0 < wh.1 < 2 ^ 53 ∧ 0 < wh.2 < 2 ^ 53 →
                   0 < f wh < 2 ^ 53) →
            x ∈ f <$> ((w0, h0) :: rest) → 0 < x < 2 ^ 53).
  { intros f x Hf Hx. apply list_elem_of_fmap in Hx as (wh & -> & Hin).
    rewrite Forall_forall in Hbound. apply Hf, Hbound. exact Hin. }
  assert (Hwr : 0 < make_teaser.py_max w0 (fst <$> rest) < 2 ^ 53).
  { destruct Hw as [Hin _].
    apply (Hrange fst); [by intros ? [? _]|exact Hin]. }
  assert (Hhr : 0 < make_teaser.py_max h0 (snd <$> rest) < 2 ^ 53).
  { destruct Hh as [Hin _].
    apply (Hrange snd); [by intros ? [_ ?]|exact Hin]. }
  split.
  - rewrite !even_exact by lia. done.
  - split; [by intros -> ->|].
    split; apply ceil_even_spec.
Qed.
End tile_size_properties.

(** ** make_teaser.build_xstack *)

(** C8. [build_xstack] raises [AssertionError] without running any
    command when the number of tiles differs from COLS x ROWS, and runs
    its one [ffmpeg] command when the number is exactly COLS x ROWS. *)
Theorem build_xstack_checks_tile_count (COLS ROWS : Z)
    (exit_ok : list string → bool) (inputs : list pathlib.path)
    (out_path : pathlib.path) (W H : Z) (tr : make_teaser.trace) :
  (Z.of_nat (length inputs) ≠ COLS * ROWS →
   ∃ msg, make_teaser.build_xstack COLS ROWS exit_ok inputs out_path W H tr
          = (tr, Raise (AssertionError msg)))
  ∧ (Z.of_nat (length inputs) = COLS * ROWS →
     ∃ cmd, make_teaser.build_xstack COLS ROWS exit_ok inputs out_path W H tr
            = (tr ++ [cmd],
               if exit_ok cmd then Ok () else Raise CalledProcessError)).
Proof.
  unfold make_teaser.build_xstack, make_teaser.run. split; intros Hn.
  - destruct (Z.eqb_spec (Z.of_nat (length inputs)) (COLS * ROWS)); [done|].
    cbn [negb]. by eexists.
  - destruct (Z.eqb_spec (Z.of_nat (length inputs)) (COLS * ROWS)); [|done].
    cbn [negb]. by eexists.
Qed.

Lemma process_one_no_frames_witness :
  decodes_no_frame unit (λ _, cv2.Capture true (F64.of_Z 30) 640 360 0 [])
    ("clips/a", "cropped_video.mp4")
    {[ ("clips/a", "cropped_video.mp4") := () ]}
  ∧ ∃ fs',
      color.process_one reference.powf reference.mean2 reference.mean1 unit
        (λ _, cv2.Capture true (F64.of_Z 30) 640 360 0 [])
        (λ _ _ _ _, Some ()) false (λ _, None) (λ _ _, (None, false))
        ("clips/a", "cropped_video.mp4")
        {[ ("clips/a", "cropped_video.mp4") := () ]}
      = (fs', Ok false)
      ∧ fs' !! ("clips/a", "cropped_video.mp4") = Some ().
Proof.
  assert (H : decodes_no_frame unit
                (λ _, cv2.Capture true (F64.of_Z 30) 640 360 0 [])
                ("clips/a", "cropped_video.mp4")
                {[ ("clips/a", "cropped_video.mp4") := () ]})
    by (intros c _; reflexivity).
  split; [exact H|].
  destruct (process_one_no_frames reference.powf reference.mean2
              reference.mean1 unit
              (λ _, cv2.Capture true (F64.of_Z 30) 640 360 0 [])
              (λ _ _ _ _, Some ()) false (λ _, None) (λ _ _, (None, false))
              ("clips/a", "cropped_video.mp4")
              {[ ("clips/a", "cropped_video.mp4") := () ]} H)
    as (fs' & Hrun & Hsame & _).
  exists fs'. split; [exact Hrun|].
  etrans; [exact Hsame|]. apply lookup_singleton_eq.
Defined.

Lemma tile_size_is_ceil_even_of_max_witness :
  omap (probed_size (λ _, true) (λ _, Some (641, 361, F64.of_Z 10)))
    (job_sources ["Cassie-door"]) ≠ []
  ∧ make_teaser.tile_size
      (make_teaser.collect ["Cassie-door"] (λ _, true)
         (λ _, Some (641, 361, F64.of_Z 10))).1
    = Ok (642, 362).
Proof.
  assert (Hne : omap (probed_size (λ _, true)
                        (λ _, Some (641, 361, F64.of_Z 10)))
                  (job_sources ["Cassie-door"]) ≠ []) by discriminate.
  split; [exact Hne|].
  destruct (tile_size_is_ceil_even_of_max ["Cassie-door"] (λ _, true)
              (λ _, Some (641, 361, F64.of_Z 10)) Hne)
    as (wmax & hmax & [Hw _] & [Hh _] & Heq & Hex & _).
  - repeat constructor; cbn; lia.
  - rewrite Heq. f_equal. apply Hex.
    + cbn in Hw. apply elem_of_cons in Hw as [->|Hw]; [done|].
      apply elem_of_cons in Hw as [->|Hw]; [done|]. by apply elem_of_nil in Hw.
    + cbn in Hh. apply elem_of_cons in Hh as [->|Hh]; [done|].
      apply elem_of_cons in Hh as [->|Hh]; [done|]. by apply elem_of_nil in Hh.
Defined.

(** The [xstack] command always carries the [-shortest] flag. *)
Lemma build_xstack_passes_shortest (COLS ROWS : Z)
    (exit_ok : list string → bool) (inputs : list pathlib.path)
    (out_path : pathlib.path) (W H : Z) (tr : make_teaser.trace) :
  Z.of_nat (length inputs) = COLS * ROWS →
  ∃ cmd, (make_teaser.build_xstack COLS ROWS exit_ok inputs out_path W H tr).1
         = tr ++ [cmd]
         ∧ "-shortest" ∈ cmd.
Proof.
  intros Hn. unfold make_teaser.build_xstack, make_teaser.run.
  destruct (Z.eqb_spec (Z.of_nat (length inputs)) (COLS * ROWS)); [|done].
  cbn [negb fst]. eexists. split; [reflexivity|].
  rewrite !elem_of_app. right. right.
  apply list_elem_of_In. simpl.
  repeat first [left; reflexivity | right].
Qed.

(* ===================================================================== *)
(** * Further properties of the scripts *)
(* ===================================================================== *)

(** ** The paths of a job *)

Lemma with_suffix_stem (p : pathlib.path) :
  ∃ stem, ∀ s, pathlib.with_suffix p s = (p.1, stem +:+ s).
Proof.
  unfold pathlib.with_suffix.
  destruct (decide (pathlib.suffix p.2 = "")); eexists; intros s; reflexivity.
Qed.

Lemma string_app_inv (s t1 t2 : string) : s +:+ t1 = s +:+ t2 → t1 = t2.
Proof.
  induction s as [|a s IH]; simpl; [done|]. intros H. injection H as H. auto.
Qed.

Lemma with_suffix_differ (p : pathlib.path) (s1 s2 : string) :
  s1 ≠ s2 → pathlib.with_suffix p s1 ≠ pathlib.with_suffix p s2.
Proof.
  intros Hne Heq. destruct (with_suffix_stem p) as (stem & Hstem).
  rewrite !Hstem in Heq. injection Heq as Heq.
  by apply string_app_inv in Heq.
Qed.

(** The four paths of a job are pairwise different. *)
Lemma job_paths_distinct (fpath : pathlib.path) : NoDup (job_paths fpath).
Proof.
  unfold job_paths.
  assert (H1 := with_suffix_ne fpath ".tmp.mp4" 3 eq_refl).
  assert (H2 := with_suffix_ne fpath ".bak.mp4" 3 eq_refl).
  assert (H3 := with_suffix_ne fpath ".h264.tmp.mp4" 8 eq_refl).
  assert (H4 := with_suffix_differ fpath ".tmp.mp4" ".bak.mp4"
                  ltac:(discriminate)).
  assert (H5 := with_suffix_differ fpath ".tmp.mp4" ".h264.tmp.mp4"
                  ltac:(discriminate)).
  assert (H6 := with_suffix_differ fpath ".bak.mp4" ".h264.tmp.mp4"
                  ltac:(discriminate)).
  repeat (apply NoDup_cons; split;
          [rewrite ?elem_of_cons, elem_of_nil; intuition congruence|]).
  apply NoDup_nil_2.
Qed.

(** ** color.process_one: jobs that write frames *)

Section process_one_jobs.
Variable powf : spec_float → spec_float → spec_float.
Variable np_mean2 : list (list spec_float) → spec_float.
Variable np_mean1 : list spec_float → spec_float.
Variable content : Type.
Variable cv2_VideoCapture : content → cv2.capture cv2.ndarray.
Variable cv2_VideoWriter :
  spec_float → Z → Z → list (image Z) → option content.
Variable has_ffmpeg_on_path : bool.
Variable ffprobe_size : content → option (Z * Z).
Variable ffmpeg_h264 : bool → content → option content * bool.

Local Abbreviation process_one :=
  (color.process_one powf np_mean2 np_mean1 content cv2_VideoCapture
     cv2_VideoWriter has_ffmpeg_on_path ffprobe_size ffmpeg_h264).
Local Abbreviation color_fix := (color.color_fix powf np_mean2 np_mean1).
Local Abbreviation tmp_of := (λ fpath, pathlib.with_suffix fpath ".tmp.mp4").
Local Abbreviation bak_of := (λ fpath, pathlib.with_suffix fpath ".bak.mp4").
Local Abbreviation h264_of :=
  (λ fpath, pathlib.with_suffix fpath ".h264.tmp.mp4").

(** The loop writes the equalised frames the source yields before its
    first failed read, in order. *)
Lemma read_loop_yielded (reads : list (option cv2.ndarray)) :
  color.read_loop powf np_mean2 np_mean1 reads
  = (λ frame, color_fix (as_bgr frame)) <$> yielded reads.
Proof.
  induction reads as [|[frame|] reads IH]; cbn; [done| |done].
  rewrite IH. by destruct frame.
Qed.

Lemma job_paths_ne (fpath : pathlib.path) :
  tmp_of fpath ≠ fpath ∧ bak_of fpath ≠ fpath ∧ h264_of fpath ≠ fpath
  ∧ tmp_of fpath ≠ bak_of fpath ∧ tmp_of fpath ≠ h264_of fpath
  ∧ bak_of fpath ≠ h264_of fpath.
Proof.
  pose proof (job_paths_distinct fpath) as H. unfold job_paths in H.
  rewrite !NoDup_cons in H. rewrite !elem_of_cons in H.
  repeat split; intros Heq; rewrite ?Heq in H; intuition congruence.
Qed.

(** The part of [process_one] up to the test [frames == 0], for a job
    that writes frames. *)
Lemma process_one_writes (fpath : pathlib.path)
    (fs : gmap pathlib.path content) (c cw : content) :
  job_writes content cv2_VideoCapture cv2_VideoWriter fpath fs c cw
    ((λ frame, color_fix (as_bgr frame))
       <$> yielded (cv2.cap_reads (cv2_VideoCapture c))) →
  process_one fpath fs
  = let fs1 := <[tmp_of fpath := cw]> fs in
    let fs2 := <[bak_of fpath := c]> (delete fpath fs1) in
    let fs3 := delete (tmp_of fpath)
                 (<[fpath := cw]> (delete (tmp_of fpath) fs2)) in
    let '(fs4, r) :=
      if has_ffmpeg_on_path
      then color.transcode_h264 content ffprobe_size ffmpeg_h264 fpath fs3
      else (fs3, Ok ()) in
    match r with
    | Ok _ | Raise CalledProcessError => (delete (bak_of fpath) fs4, Ok true)
    | Raise e => (fs4, Raise e)
    end.
Proof.
  intros (Hc & Hopen & Hw & Hh & Hne & Hwr).
  destruct (job_paths_ne fpath) as (Ht & Hb & _ & Htb & _).
  unfold color.process_one, color.has_ffmpeg, color.replace, color.unlink.
  rewrite Hc, Hopen. cbn [negb].
  replace ((cv2.cap_width (cv2_VideoCapture c) <=? 0)
           || (cv2.cap_height (cv2_VideoCapture c) <=? 0)) with false
    by (symmetry; apply orb_false_iff; split; apply Z.leb_gt; lia).
  rewrite read_loop_yielded. fold (fps_or_30 (cv2_VideoCapture c)).
  rewrite Hwr.
  destruct ((λ frame, color_fix (as_bgr frame))
              <$> yielded (cv2.cap_reads (cv2_VideoCapture c)))
    as [|f0 frames] eqn:Hframes; [done|].
  cbn [length Nat.eqb].
  rewrite lookup_insert_ne by done. rewrite Hc.
  rewrite lookup_insert_ne by done.
  rewrite lookup_delete_ne by done.
  rewrite lookup_insert_eq.
  reflexivity.
Qed.

(** X1. A job that decodes at least one frame, on a machine without
    [ffmpeg]: it returns [True], the file holds what the writer produced
    for the equalised frames, the temporary and the backup file are
    gone, and no other path is touched. *)
Theorem process_one_replaces_file (fpath : pathlib.path)
    (fs : gmap pathlib.path content) (c cw : content) :
  job_writes content cv2_VideoCapture cv2_VideoWriter fpath fs c cw
    ((λ frame, color_fix (as_bgr frame))
       <$> yielded (cv2.cap_reads (cv2_VideoCapture c))) →
  has_ffmpeg_on_path = false →
  ∃ fs',
    process_one fpath fs = (fs', Ok true)
    ∧ fs' !! fpath = Some cw
    ∧ fs' !! tmp_of fpath = None
    ∧ fs' !! bak_of fpath = None
    ∧ ∀ p, p ≠ fpath → p ≠ tmp_of fpath → p ≠ bak_of fpath →
           fs' !! p = fs !! p.
Proof.
  intros Hjob Hff. rewrite (process_one_writes _ _ _ _ Hjob), Hff.
  destruct (job_paths_ne fpath) as (Ht & Hb & _ & Htb & _).
  cbv zeta. eexists. split; [reflexivity|].
  split; [by simplify_map_eq|]. split; [by simplify_map_eq|].
  split; [by simplify_map_eq|]. intros p ? ? ?. by simplify_map_eq.
Qed.

Lemma transcode_h264_succeeds (src : pathlib.path)
    (fs : gmap pathlib.path content) (c ch : content) :
  fs !! src = Some c →
  (∀ vf, ffmpeg_h264 vf c = (Some ch, true)) →
  color.transcode_h264 content ffprobe_size ffmpeg_h264 src fs
  = (<[src := ch]> (delete (h264_of src) (<[h264_of src := ch]> fs)), Ok ()).
Proof.
  intros Hc Hff. unfold color.transcode_h264, color.replace.
  rewrite Hc, Hff. cbn [negb]. by rewrite lookup_insert_eq.
Qed.

Lemma transcode_h264_fails (src : pathlib.path)
    (fs : gmap pathlib.path content) (c : content) :
  fs !! src = Some c →
  (∀ vf, (ffmpeg_h264 vf c).2 = false) →
  ∃ fs',
    color.transcode_h264 content ffprobe_size ffmpeg_h264 src fs
    = (fs', Raise CalledProcessError)
    ∧ ∀ p, p ≠ h264_of src → fs' !! p = fs !! p.
Proof.
  intros Hc Hff. unfold color.transcode_h264.
  rewrite Hc.
  match goal with
  | |- context [ffmpeg_h264 ?vf c] =>
      specialize (Hff vf); destruct (ffmpeg_h264 vf c) as [written ok]
  end.
  cbn in Hff. subst ok. cbn [negb].
  eexists. split; [reflexivity|]. intros p Hp.
  destruct written; by simplify_map_eq.
Qed.

(** X2. A job that decodes at least one frame, with an [ffmpeg] that
    succeeds: it returns [True], the file holds the H.264 transcode of
    what the writer produced, none of the three temporary files is left,
    and no other path is touched. *)
Theorem process_one_transcodes (fpath : pathlib.path)
    (fs : gmap pathlib.path content) (c cw ch : content) :
  job_writes content cv2_VideoCapture cv2_VideoWriter fpath fs c cw
    ((λ frame, color_fix (as_bgr frame))
       <$> yielded (cv2.cap_reads (cv2_VideoCapture c))) →
  has_ffmpeg_on_path = true →
  (∀ vf, ffmpeg_h264 vf cw = (Some ch, true)) →
  ∃ fs',
    process_one fpath fs = (fs', Ok true)
    ∧ fs' !! fpath = Some ch
    ∧ fs' !! tmp_of fpath = None
    ∧ fs' !! bak_of fpath = None
    ∧ fs' !! h264_of fpath = None
    ∧ ∀ p, p ∉ job_paths fpath → fs' !! p = fs !! p.
Proof.
  intros Hjob Hhas Hff. rewrite (process_one_writes _ _ _ _ Hjob), Hhas.
  destruct (job_paths_ne fpath) as (Ht & Hb & Hh & Htb & Hth & Hbh).
  cbv zeta.
  rewrite (transcode_h264_succeeds fpath _ cw ch) by (done || by simplify_map_eq).
  eexists. split; [reflexivity|].
  split; [by simplify_map_eq|]. split; [by simplify_map_eq|].
  split; [by simplify_map_eq|]. split; [by simplify_map_eq|].
  intros p Hp. unfold job_paths in Hp.
  rewrite !not_elem_of_cons in Hp. destruct Hp as (? & ? & ? & ? & _).
  by simplify_map_eq.
Qed.

(** X3. When [ffmpeg] is there but fails, the job is still reported as
    done ([True]): the file keeps what the writer produced, and the
    temporary output and the backup are gone. *)
Theorem process_one_keeps_mp4v_when_transcode_fails
    (fpath : pathlib.path) (fs : gmap pathlib.path content)
    (c cw : content) :
  job_writes content cv2_VideoCapture cv2_VideoWriter fpath fs c cw
    ((λ frame, color_fix (as_bgr frame))
       <$> yielded (cv2.cap_reads (cv2_VideoCapture c))) →
  has_ffmpeg_on_path = true →
  (∀ vf, (ffmpeg_h264 vf cw).2 = false) →
  ∃ fs',
    process_one fpath fs = (fs', Ok true)
    ∧ fs' !! fpath = Some cw
    ∧ fs' !! tmp_of fpath = None
    ∧ fs' !! bak_of fpath = None
    ∧ ∀ p, p ∉ job_paths fpath → fs' !! p = fs !! p.
Proof.
  intros Hjob Hhas Hff. rewrite (process_one_writes _ _ _ _ Hjob), Hhas.
  destruct (job_paths_ne fpath) as (Ht & Hb & Hh & Htb & Hth & Hbh).
  cbv zeta.
  match goal with
  | |- context [color.transcode_h264 _ _ _ fpath ?fs3] =>
      destruct (transcode_h264_fails fpath fs3 cw) as (fs4 & -> & Hframe);
        [by simplify_map_eq|done|]
  end.
  eexists. split; [reflexivity|].
  split; [rewrite lookup_delete_ne, Hframe by done; by simplify_map_eq|].
  split; [rewrite lookup_delete_ne, Hframe by done; by simplify_map_eq|].
  split; [by simplify_map_eq|].
  intros p Hp. unfold job_paths in Hp.
  rewrite !not_elem_of_cons in Hp. destruct Hp as (? & ? & ? & ? & _).
  rewrite lookup_delete_ne, Hframe by done. by simplify_map_eq.
Qed.

(** X4. When frames were decoded but the writer left no file (and no
    stale temporary file lies around), the move into place fails and the
    job rolls back: it returns [False], the original content is back
    under the original name, and no backup or temporary file is left. *)
Theorem process_one_rolls_back (fpath : pathlib.path)
    (fs : gmap pathlib.path content) (c : content) :
  fs !! fpath = Some c →
  cv2.cap_opened (cv2_VideoCapture c) = true →
  0 < cv2.cap_width (cv2_VideoCapture c) →
  0 < cv2.cap_height (cv2_VideoCapture c) →
  yielded (cv2.cap_reads (cv2_VideoCapture c)) ≠ [] →
  cv2_VideoWriter (fps_or_30 (cv2_VideoCapture c))
    (cv2.cap_width (cv2_VideoCapture c))
    (cv2.cap_height (cv2_VideoCapture c))
    ((λ frame, color_fix (as_bgr frame))
       <$> yielded (cv2.cap_reads (cv2_VideoCapture c))) = None →
  fs !! tmp_of fpath = None →
  ∃ fs',
    process_one fpath fs = (fs', Ok false)
    ∧ fs' !! fpath = Some c
    ∧ fs' !! tmp_of fpath = None
    ∧ fs' !! bak_of fpath = None
    ∧ ∀ p, p ≠ bak_of fpath → fs' !! p = fs !! p.
Proof.
  intros Hc Hopen Hw Hh Hne Hwr Htmp.
  destruct (job_paths_ne fpath) as (Ht & Hb & _ & Htb & _).
  unfold color.process_one, color.has_ffmpeg, color.replace, color.unlink.
  rewrite Hc, Hopen. cbn [negb].
  replace ((cv2.cap_width (cv2_VideoCapture c) <=? 0)
           || (cv2.cap_height (cv2_VideoCapture c) <=? 0)) with false
    by (symmetry; apply orb_false_iff; split; apply Z.leb_gt; lia).
  rewrite read_loop_yielded. fold (fps_or_30 (cv2_VideoCapture c)).
  rewrite Hwr.
  destruct (yielded (cv2.cap_reads (cv2_VideoCapture c)))
    as [|f0 frames]; [done|].
  cbn [fmap list_fmap length Nat.eqb].
  rewrite Hc. rewrite lookup_insert_ne by done.
  rewrite lookup_delete_ne by done. rewrite Htmp.
  rewrite lookup_delete_ne by done. rewrite lookup_insert_eq.
  eexists. split; [reflexivity|].
  split; [by simplify_map_eq|]. split; [by simplify_map_eq|].
  split; [by simplify_map_eq|].
  intros p Hp. destruct (decide (p = fpath)) as [Hpf|?];
    [rewrite Hpf; by simplify_map_eq|].
  destruct (decide (p = tmp_of fpath)) as [Hpt|?];
    [rewrite Hpt; by simplify_map_eq|].
  by simplify_map_eq.
Qed.

Lemma process_one_frame (fpath p : pathlib.path)
    (fs : gmap pathlib.path content) :
  p ∉ job_paths fpath → (process_one fpath fs).1 !! p = fs !! p.
Proof.
  intros Hp. unfold job_paths in Hp.
  rewrite !not_elem_of_cons in Hp. destruct Hp as (? & ? & ? & ? & _).
  unfold color.process_one, color.has_ffmpeg, color.transcode_h264,
    color.replace, color.unlink.
  repeat case_match; simplify_eq; cbn [fst]; by simplify_map_eq.
Qed.

(** X5. Whatever happens in a job (skip, no frames, rollback, transcode
    failure, exception), only the job's own four paths can change: the
    file itself and its [.tmp.mp4], [.bak.mp4] and [.h264.tmp.mp4]
    siblings. *)
Theorem process_one_touches_only_job_paths (fpath p : pathlib.path)
    (fs : gmap pathlib.path content) :
  p ∉ job_paths fpath → (process_one fpath fs).1 !! p = fs !! p.
Proof. apply process_one_frame. Qed.
End process_one_jobs.

(** ** color.main: the batch *)

Section color_main_properties.
Variable powf : spec_float → spec_float → spec_float.
Variable np_mean2 : list (list spec_float) → spec_float.
Variable np_mean1 : list spec_float → spec_float.
Variable content : Type.
Variable cv2_VideoCapture : content → cv2.capture cv2.ndarray.
Variable cv2_VideoWriter :
  spec_float → Z → Z → list (image Z) → option content.
Variable has_ffmpeg_on_path : bool.
Variable ffprobe_size : content → option (Z * Z).
Variable ffmpeg_h264 : bool → content → option content * bool.
Variable keyboard_interrupt :
  pathlib.path → gmap pathlib.path content
  → option (gmap pathlib.path content).

Local Abbreviation process_one :=
  (color.process_one powf np_mean2 np_mean1 content cv2_VideoCapture
     cv2_VideoWriter has_ffmpeg_on_path ffprobe_size ffmpeg_h264).
Local Abbreviation batch_loop :=
  (color.batch_loop powf np_mean2 np_mean1 content cv2_VideoCapture
     cv2_VideoWriter has_ffmpeg_on_path ffprobe_size ffmpeg_h264
     keyboard_interrupt).
Local Abbreviation main :=
  (color.main powf np_mean2 np_mean1 content cv2_VideoCapture
     cv2_VideoWriter has_ffmpeg_on_path ffprobe_size ffmpeg_h264
     keyboard_interrupt).
Local Abbreviation interrupted_job := (color.interrupted_job content).

(** An interrupted job leaves every path but its own four as it was. *)
Lemma interrupted_job_frame (f p : pathlib.path)
    (partial fs : gmap pathlib.path content) :
  p ∉ job_paths f → interrupted_job f partial fs !! p = fs !! p.
Proof.
  unfold job_paths, color.interrupted_job. rewrite !not_elem_of_cons.
  intros (H1 & H2 & H3 & H4 & _). cbn [foldr].
  by rewrite !lookup_partial_alter_ne.
Qed.

(** The counts grow by one per finished job; the loop ends early only
    at a job that is interrupted. *)
Lemma batch_loop_counts (found : list pathlib.path) (ok fail : Z)
    (fs : gmap pathlib.path content) :
  ∃ fs' ok' fail',
    batch_loop found ok fail fs = (fs', (ok', fail'))
    ∧ ok ≤ ok' ∧ fail ≤ fail'
    ∧ ok' + fail' ≤ ok + fail + Z.of_nat (length found)
    ∧ ((∀ f fs0, keyboard_interrupt f fs0 = None) →
       ok' + fail' = ok + fail + Z.of_nat (length found))
    ∧ (ok' + fail' < ok + fail + Z.of_nat (length found) →
       ∃ f fs0 partial,
         found !! Z.to_nat (ok' + fail' - (ok + fail)) = Some f
         ∧ keyboard_interrupt f fs0 = Some partial
         ∧ fs' = interrupted_job f partial fs0).
Proof.
  revert ok fail fs. induction found as [|f rest IH]; intros ok fail fs.
  { exists fs, ok, fail. cbn. split; [done|]. split; [lia|]. split; [lia|].
    split; [lia|]. split; [lia|]. lia. }
  cbn [color.batch_loop length].
  destruct (keyboard_interrupt f fs) as [partial|] eqn:Hint.
  { exists (interrupted_job f partial fs), ok, fail.
    split; [done|]. split; [lia|]. split; [lia|]. split; [lia|].
    split; [intros Hnone; by rewrite Hnone in Hint|].
    intros _. exists f, fs, partial.
    by replace (ok + fail - (ok + fail)) with 0 by lia. }
  assert (Hstep : ∀ ok1 fail1 fs1,
            ok1 + fail1 = ok + fail + 1 → ok ≤ ok1 → fail ≤ fail1 →
            ∃ fs' ok' fail',
              batch_loop rest ok1 fail1 fs1 = (fs', (ok', fail'))
              ∧ ok ≤ ok' ∧ fail ≤ fail'
              ∧ ok' + fail' ≤ ok + fail + Z.of_nat (S (length rest))
              ∧ ((∀ f fs0, keyboard_interrupt f fs0 = None) →
                 ok' + fail' = ok + fail + Z.of_nat (S (length rest)))
              ∧ (ok' + fail' < ok + fail + Z.of_nat (S (length rest)) →
                 ∃ g fs0 partial,
                   (f :: rest) !! Z.to_nat (ok' + fail' - (ok + fail))
                   = Some g
                   ∧ keyboard_interrupt g fs0 = Some partial
                   ∧ fs' = interrupted_job g partial fs0)).
  { intros ok1 fail1 fs1 Hsum Hok Hfail.
    destruct (IH ok1 fail1 fs1)
      as (fs' & ok' & fail' & Hrun & ? & ? & ? & Hall & Hearly).
    exists fs', ok', fail'. split; [exact Hrun|].
    split; [lia|]. split; [lia|]. split; [lia|].
    split; [intros Hnone; specialize (Hall Hnone); lia|].
    intros Hlt. destruct Hearly as (g & fs0 & partial & Hg & Hint' & ->);
      [lia|].
    exists g, fs0, partial. split; [|done].
    replace (Z.to_nat (ok' + fail' - (ok + fail)))
      with (S (Z.to_nat (ok' + fail' - (ok1 + fail1)))) by lia.
    exact Hg. }
  destruct (process_one f fs) as [fs1 [[]|e]]; apply Hstep; lia.
Qed.

(** X7. The batch counts a file once, as ok or as failed, for every job
    that ran to its end, also when the job raised: without a
    [KeyboardInterrupt] the two counts of the summary add up to the
    number of files found.  A [KeyboardInterrupt] ends the loop: the
    counts then cover the files before the interrupted one, and the
    files are left as the interrupted job left them.  With no file
    found [main] exits with status 0 and touches nothing. *)
Theorem main_counts_every_file (found : list pathlib.path)
    (fs : gmap pathlib.path content) :
  (found = [] → main found fs = (fs, Raise (SystemExit 0)))
  ∧ (found ≠ [] →
     ∃ fs' ok fail,
       main found fs = (fs', Ok (ok, fail))
       ∧ 0 ≤ ok ∧ 0 ≤ fail
       ∧ ok + fail ≤ Z.of_nat (length found)
       ∧ ((∀ f fs0, keyboard_interrupt f fs0 = None) →
          ok + fail = Z.of_nat (length found))
       ∧ (ok + fail < Z.of_nat (length found) →
          ∃ f fs0 partial,
            found !! Z.to_nat (ok + fail) = Some f
            ∧ keyboard_interrupt f fs0 = Some partial
            ∧ fs' = interrupted_job f partial fs0)).
Proof.
  split; [by intros ->|]. intros Hne. unfold color.main.
  destruct found as [|f rest]; [done|].
  destruct (batch_loop_counts (f :: rest) 0 0 fs)
    as (fs' & ok & fail & -> & ? & ? & ? & Hall & Hearly).
  exists fs', ok, fail. split; [done|].
  split; [lia|]. split; [lia|]. split; [lia|].
  split; [intros Hnone; specialize (Hall Hnone); lia|].
  intros Hlt. destruct Hearly as (g & fs0 & partial & Hg & Hint & ->);
    [lia|].
  exists g, fs0, partial. split; [|done].
  by replace (ok + fail - (0 + 0)) with (ok + fail) in Hg by lia.
Qed.

(** X8. The batch changes no path other than the four job paths of the
    files it was given. *)
Theorem main_touches_only_job_paths (found : list pathlib.path)
    (p : pathlib.path) (fs : gmap pathlib.path content) :
  (∀ f, f ∈ found → p ∉ job_paths f) →
  (main found fs).1 !! p = fs !! p.
Proof.
  intros Hp. unfold color.main.
  destruct found as [|f0 rest0]; [done|].
  generalize (f0 :: rest0) Hp. clear Hp. intros found Hp.
  enough (H : ∀ ok fail fs0,
            (batch_loop found ok fail fs0).1 !! p = fs0 !! p).
  { specialize (H 0 0 fs).
    by destruct (batch_loop found 0 0 fs) as [fs' counts]. }
  induction found as [|f rest IH]; intros ok fail fs0; [done|].
  cbn [color.batch_loop].
  destruct (keyboard_interrupt f fs0) as [partial|].
  { cbn [fst]. apply interrupted_job_frame, Hp. by left. }
  pose proof (process_one_frame powf np_mean2 np_mean1
                content cv2_VideoCapture cv2_VideoWriter has_ffmpeg_on_path
                ffprobe_size ffmpeg_h264 f p fs0
                (Hp f ltac:(by left))) as Hf.
  assert (Hrest : ∀ g, g ∈ rest → p ∉ job_paths g)
    by (intros g Hg; apply Hp; by right).
  destruct (process_one f fs0) as [fs1 [[]|e]]; cbn [fst] in Hf;
    rewrite (IH Hrest); exact Hf.
Qed.
End color_main_properties.

(** ** color.color_fix on arbitrary frames *)

Section color_fix_more.
Variable powf : spec_float → spec_float → spec_float.
Variable np_mean2 : list (list spec_float) → spec_float.
Variable np_mean1 : list spec_float → spec_float.

Local Abbreviation color_fix := (color.color_fix powf np_mean2 np_mean1).

Lemma img_map_px_related {A B} (f : px A → px B) (R : px A → px B → Prop)
    (im : image A) :
  (∀ q, R q (f q)) → Forall2 (Forall2 R) im (img_map_px f im).
Proof.
  intros HR. unfold img_map_px.
  induction im as [|row im IH]; [constructor|].
  cbn [map]. constructor; [|exact IH].
  induction row as [|q row IHrow]; [constructor|].
  cbn [map]. constructor; [apply HR|exact IHrow].
Qed.

(** X10. Black stays black: in every frame, a sample of value 0 comes
    out as 0, whatever the rest of the frame is. *)
Theorem color_fix_keeps_zero_samples (im : image Z) :
  Forall2 (Forall2 (λ q q', (ch0 q = 0 → ch0 q' = 0)
                            ∧ (ch1 q = 0 → ch1 q' = 0)
                            ∧ (ch2 q = 0 → ch2 q' = 0)))
    im (color_fix im).
Proof.
  rewrite color_fix_pointwise. apply img_map_px_related.
  intros q. unfold px_zip. cbn [ch0 ch1 ch2].
  repeat split; intros ->; apply zero_sample_fixed.
Qed.

Lemma planes_agree {A B} (c c' : px A → B) (im : image A) :
  Forall (Forall (λ q, c q = c' q)) im →
  map (map c) im = map (map c') im.
Proof.
  intros Him.
  induction Him as [|row im Hrow _ IH]; [done|].
  cbn [map]. f_equal; [|exact IH].
  induction Hrow as [|q row Hq _ IHrow]; [done|].
  cbn [map]. f_equal; [exact Hq|exact IHrow].
Qed.

Lemma equal_channels_equal_scale (c c' : px Z → Z) (im : image Z) :
  Forall (Forall (λ q, c q = c' q)) im →
  gray_world.scale powf np_mean2 np_mean1 c im
  = gray_world.scale powf np_mean2 np_mean1 c' im.
Proof.
  intros Him. unfold gray_world.scale, gray_world.power_mean.
  rewrite (planes_agree
             (λ q, powf (F32.of_Z (c q)) (F32.of_f64 gray_world.power))
             (λ q, powf (F32.of_Z (c' q)) (F32.of_f64 gray_world.power))
             im); [done|].
  eapply Forall_impl; [exact Him|]. intros row Hrow.
  eapply Forall_impl; [exact Hrow|]. intros q Hq. cbn. by rewrite Hq.
Qed.

(** X11. A grayscale frame stays grayscale: when the three samples of
    every pixel agree (as in a 2-D frame converted to B, G, R), they
    agree in every pixel of the result. *)
Theorem color_fix_keeps_grayscale (im : image Z) :
  Forall (Forall gray_px) im → Forall (Forall gray_px) (color_fix im).
Proof.
  intros Him.
  assert (H01 : Forall (Forall (λ q : px Z, ch0 q = ch1 q)) im).
  { eapply Forall_impl; [exact Him|]. intros row Hrow.
    eapply Forall_impl; [exact Hrow|]. by intros q [? _]. }
  assert (H12 : Forall (Forall (λ q : px Z, ch1 q = ch2 q)) im).
  { eapply Forall_impl; [exact Him|]. intros row Hrow.
    eapply Forall_impl; [exact Hrow|]. by intros q [_ ?]. }
  rewrite color_fix_pointwise, scale_of_contract.
  rewrite (equal_channels_equal_scale ch0 ch1 im H01).
  rewrite (equal_channels_equal_scale ch1 ch2 im H12).
  generalize (gray_world.scale powf np_mean2 np_mean1 ch2 im) as s.
  intros s. clear H01 H12. unfold img_map_px.
  induction Him as [|row im Hrow _ IH]; [constructor|].
  cbn [map]. constructor; [|exact IH].
  induction Hrow as [|q row Hq _ IHrow]; [constructor|].
  cbn [map]. constructor; [|exact IHrow].
  destruct Hq as [Hq1 Hq2]. unfold gray_px, px_zip. cbn [ch0 ch1 ch2].
  by rewrite Hq1, Hq2.
Qed.
End color_fix_more.

(** ** tune_video: further properties *)

Section tune_video_more.
Import tune_video.
Variable powf : spec_float → spec_float → spec_float.

Lemma apply_adjust_per_sample_eq (frame : image Z)
    (exposure contrast r_gain g_gain b_gain gamma : spec_float) :
  nonzero gamma →
  apply_adjust powf frame exposure contrast (r_gain, g_gain, b_gain) gamma
  = Ok (img_map_px
          (λ q, Px (adjust_sample powf exposure contrast b_gain gamma (ch0 q))
                   (adjust_sample powf exposure contrast g_gain gamma (ch1 q))
                   (adjust_sample powf exposure contrast r_gain gamma (ch2 q)))
          frame).
Proof.
  intros Hg. unfold apply_adjust, step_gamma, py_truediv.
  unfold nonzero in Hg. rewrite Hg.
  unfold step_store, step_contrast, step_gains, step_exposure,
    np.astype_float32, img_map, adjust_sample.
  destruct (py_ne contrast (F64.of_Z 1)), (py_ne gamma (F64.of_Z 1));
    cbn [mbind result_bind mret result_ret]; f_equal;
    unfold img_map; rewrite !img_map_px_compose; reflexivity.
Qed.

Lemma img_map_px_pointwise {A B} (f f' : px A → px B)
    (R : px B → px B → Prop) (im : image A) :
  (∀ q, R (f q) (f' q)) →
  Forall2 (Forall2 R) (img_map_px f im) (img_map_px f' im).
Proof.
  intros HR. unfold img_map_px.
  induction im as [|row im IH]; [constructor|].
  cbn [map]. constructor; [|exact IH].
  induction row as [|q row IHrow]; [constructor|].
  cbn [map]. constructor; [apply HR|exact IHrow].
Qed.

(** X12. Each gain reaches one channel of the B, G, R layout and no
    other: run on the same frame with two sets of gains, [apply_adjust]
    returns frames that agree in sample 0 of every pixel when the blue
    gains agree, in sample 1 when the green gains agree and in sample 2
    when the red gains agree. *)
Theorem apply_adjust_gain_reaches_one_channel (frame : image Z)
    (exposure contrast gamma : spec_float)
    (r_gain g_gain b_gain r_gain' g_gain' b_gain' : spec_float) :
  nonzero gamma →
  ∃ out out',
    apply_adjust powf frame exposure contrast
      (r_gain, g_gain, b_gain) gamma = Ok out
    ∧ apply_adjust powf frame exposure contrast
        (r_gain', g_gain', b_gain') gamma = Ok out'
    ∧ Forall2 (Forall2 (λ p p',
                 (b_gain = b_gain' → ch0 p = ch0 p')
                 ∧ (g_gain = g_gain' → ch1 p = ch1 p')
                 ∧ (r_gain = r_gain' → ch2 p = ch2 p')))
        out out'.
Proof.
  intros Hg. eexists _, _.
  split; [by apply apply_adjust_per_sample_eq|].
  split; [by apply apply_adjust_per_sample_eq|].
  apply img_map_px_pointwise. intros q. cbn [ch0 ch1 ch2].
  split; [by intros ->|]. split; by intros ->.
Qed.

(** X13. A gamma of zero makes the job fail at its first frame: when at
    least one frame is to be processed and the first read succeeds,
    [main] raises [ZeroDivisionError]. *)
Theorem main_gamma_zero_raises (a : args) (cap : cv2.capture (image Z))
    (f : image Z) (rest : list (option (image Z))) :
  cv2.cap_opened cap = true →
  F64.eqb (arg_gamma a) (S754_zero false) = true →
  0 < n_frames_of (cv2.cap_frame_count cap) (arg_limit a) →
  cv2.cap_reads cap = Some f :: rest →
  main powf a cap = Raise ZeroDivisionError.
Proof.
  intros Hopen Hg Hn Hreads. unfold main, open_video.
  rewrite Hopen. cbn [negb mbind result_bind mret result_ret].
  rewrite Hreads.
  destruct (Z.to_nat (n_frames_of (cv2.cap_frame_count cap) (arg_limit a)))
    as [|n] eqn:Hnat; [lia|].
  cbn [frame_loop cv2.cap_read].
  assert (Hadj : apply_adjust powf f (arg_exposure a) (arg_contrast a)
                   (arg_r a, arg_g a, arg_b a) (arg_gamma a)
                 = Raise ZeroDivisionError).
  { unfold apply_adjust, step_gamma, py_truediv. rewrite Hg.
    destruct (arg_gamma a) as [s|s| |s m e].
    - by destruct s.
    - destruct s; discriminate Hg.
    - discriminate Hg.
    - destruct s; discriminate Hg. }
  by rewrite Hadj.
Qed.

(** X14. A limit of zero or below is no limit: the loop processes the
    frames the source yields up to its reported frame count. *)
Theorem main_without_limit (a : args) (cap : cv2.capture (image Z)) :
  cv2.cap_opened cap = true →
  arg_limit a ≤ 0 →
  nonzero (arg_gamma a) →
  ∃ run outs,
    main powf a cap = Ok run
    ∧ Forall2 (λ f o,
         apply_adjust powf f (arg_exposure a) (arg_contrast a)
           (arg_r a, arg_g a, arg_b a) (arg_gamma a) = Ok o)
        (take (Z.to_nat (cv2.cap_frame_count cap))
           (yielded (cv2.cap_reads cap)))
        outs
    ∧ enc_stdin run = np.tobytes <$> outs.
Proof.
  intros Hopen Hlimit Hg. unfold main, open_video.
  rewrite Hopen. cbn [negb mbind result_bind mret result_ret].
  assert (Hn : n_frames_of (cv2.cap_frame_count cap) (arg_limit a)
               = cv2.cap_frame_count cap).
  { unfold n_frames_of.
    destruct (Z.eqb_spec (arg_limit a) 0); [done|].
    destruct (Z.ltb_spec 0 (arg_limit a)); [lia|done]. }
  rewrite Hn.
  destruct (frame_loop_spec powf a (Z.to_nat (cv2.cap_frame_count cap))
              (cv2.cap_reads cap) [] Hg) as (outs & Hloop & Hall).
  rewrite Hloop. cbn [mbind result_bind app].
  eexists _, outs. split; [reflexivity|]. split; [exact Hall|reflexivity].
Qed.

(** X15. Contrast pivots on 128: with unit exposure and gains and gamma
    off, a frame whose samples are all 128 is returned unchanged for
    every contrast that is a number in [float32]. *)
Theorem apply_adjust_contrast_fixes_mid_gray (frame : image Z)
    (contrast : spec_float) :
  finite32 contrast →
  img_all (λ v, v = 128) frame →
  apply_adjust powf frame (F64.of_Z 1) contrast
    (F64.of_Z 1, F64.of_Z 1, F64.of_Z 1) (F64.of_Z 1) = Ok frame.
Proof.
  intros Hc Hframe.
  rewrite apply_adjust_per_sample_eq by (vm_compute; reflexivity).
  f_equal. apply (img_map_px_id_all (λ v, v = 128)); [|exact Hframe].
  assert (Hs : adjust_sample powf (F64.of_Z 1) contrast (F64.of_Z 1)
                 (F64.of_Z 1) 128 = 128).
  { unfold adjust_sample.
    change (py_ne (F64.of_Z 1) (F64.of_Z 1)) with false. cbv iota.
    destruct (py_ne contrast (F64.of_Z 1)); [|reflexivity].
    unfold finite32 in Hc.
    destruct (F32.of_f64 contrast) as [s| | |s m e]; done. }
  intros [b g r] (Hb & Hg & Hr). cbn in Hb, Hg, Hr. subst.
  cbn [ch0 ch1 ch2]. by rewrite Hs.
Qed.
End tune_video_more.

(** ** make_teaser: the layout and the run of commands *)

Lemma list_bind_singleton {A B} (g : A → B) (l : list A) :
  (x ← l; [g x]) = g <$> l.
Proof. induction l as [|x l IH]; cbn; [done|by rewrite IH]. Qed.

(** In a concatenation of rows of one length, element [j] of row [i] is
    at index [i * n + j]. *)
Lemma list_bind_lookup_rows {A B} (f : A → list B) (n : nat) (l : list A)
    (i j : nat) :
  (∀ x, length (f x) = n) → (j < n)%nat →
  (x ← l; f x) !! (i * n + j)%nat = l !! i ≫= λ x, f x !! j.
Proof.
  intros Hlen Hj. revert i. induction l as [|x l IH]; intros i.
  - by rewrite !lookup_nil.
  - change (x ← x :: l; f x) with (f x ++ (y ← l; f y)).
    destruct i as [|i].
    + cbn. rewrite lookup_app_l by (rewrite Hlen; lia). done.
    + rewrite lookup_app_r by (rewrite Hlen; lia).
      rewrite Hlen.
      replace (S i * n + j - n)%nat with (i * n + j)%nat by lia.
      rewrite IH. done.
Qed.

Lemma list_bind_length_rows {A B} (f : A → list B) (n : nat) (l : list A) :
  (∀ x, length (f x) = n) → length (x ← l; f x) = (length l * n)%nat.
Proof.
  intros Hlen. induction l as [|x l IH]; [done|].
  change (x ← x :: l; f x) with (f x ++ (y ← l; f y)).
  rewrite length_app, Hlen, IH. cbn. lia.
Qed.

(** X16. The layout is row-major: it has COLS x ROWS entries, and the tile
    of column [c] and row [r] is entry [r * COLS + c], placed at the
    offset [(c * W, r * H)]. *)
Theorem xstack_layout_row_major (COLS ROWS W H c r : Z) :
  0 ≤ c < COLS → 0 ≤ r < ROWS →
  length (make_teaser.xstack_layout COLS ROWS W H) = Z.to_nat (COLS * ROWS)
  ∧ make_teaser.xstack_layout COLS ROWS W H !! Z.to_nat (r * COLS + c)
    = Some (pretty (c * W) +:+ "_" +:+ pretty (r * H)).
Proof.
  intros Hc Hr. unfold make_teaser.xstack_layout.
  assert (Hrows : ∀ x : Z,
            length (c0 ← seqZ 0 COLS;
                    [pretty (c0 * W) +:+ "_" +:+ pretty (x * H)])
            = Z.to_nat COLS).
  { intros x. by rewrite list_bind_singleton, length_fmap, length_seqZ. }
  split.
  - rewrite (list_bind_length_rows _ (Z.to_nat COLS)) by exact Hrows.
    rewrite length_seqZ. lia.
  - replace (Z.to_nat (r * COLS + c))
      with (Z.to_nat r * Z.to_nat COLS + Z.to_nat c)%nat by lia.
    rewrite (list_bind_lookup_rows _ (Z.to_nat COLS)) by (exact Hrows || lia).
    rewrite (lookup_seqZ_lt 0 ROWS (Z.to_nat r)) by lia.
    cbn [mbind option_bind]. rewrite list_bind_singleton, list_lookup_fmap.
    rewrite (lookup_seqZ_lt 0 COLS (Z.to_nat c)) by lia.
    cbn [fmap option_fmap option_map].
    by replace (0 + Z.of_nat (Z.to_nat c)) with c by lia;
       replace (0 + Z.of_nat (Z.to_nat r)) with r by lia.
Qed.

Section make_teaser_main.
Variable FOLDERS : list string.
Variables COLS ROWS : Z.
Variable exists_ : pathlib.path → bool.
Variable ffprobe : pathlib.path → option (Z * Z * spec_float).
Variable py_str_float : spec_float → string.
Variable exit_ok : list string → bool.

Local Abbreviation main :=
  (make_teaser.main FOLDERS COLS ROWS exists_ ffprobe py_str_float exit_ok).
Local Abbreviation all_ok := (Forall (λ c, exit_ok c = true)).

(** X17. With no source that probes to a size, [main] exits with status
    1 before running any [ffmpeg] command. *)
Theorem main_exits_without_sources :
  omap (probed_size exists_ ffprobe) (job_sources FOLDERS) = [] →
  main = ([], Raise (SystemExit 1)).
Proof.
  intros Hnone. unfold make_teaser.main.
  pose proof (collect_sizes FOLDERS exists_ ffprobe) as Hsizes.
  destruct (make_teaser.collect FOLDERS exists_ ffprobe) as [sizes durs].
  cbn [fst] in Hsizes. by rewrite Hsizes, Hnone.
Qed.

Lemma run_outcome_stops out :
  run_outcome exit_ok out → stops_at_first_failure exit_ok out.
Proof.
  unfold run_outcome, stops_at_first_failure.
  intros [[-> Hall]|[-> Hlast]]; done.
Qed.

Lemma run_outcome_run cmd tr :
  all_ok tr → run_outcome exit_ok (make_teaser.run exit_ok cmd tr).
Proof.
  intros Hall. unfold make_teaser.run, run_outcome. cbn [fst snd].
  destruct (exit_ok cmd) eqn:Hcmd.
  - left. split; [done|]. apply Forall_app. by split; [|apply Forall_singleton].
  - right. split; [done|]. by exists tr, cmd.
Qed.

Lemma ensure_norm_tile_outcome D src dst W H tr :
  all_ok tr →
  run_outcome exit_ok
    (make_teaser.ensure_norm_tile exists_ py_str_float exit_ok D src dst W H tr).
Proof. intros Hall. unfold make_teaser.ensure_norm_tile. by apply run_outcome_run. Qed.

Lemma normalize_all_outcome D W H names tr :
  all_ok tr →
  run_outcome exit_ok
    (make_teaser.normalize_all exists_ py_str_float exit_ok D W H names tr).
Proof.
  revert tr. induction names as [|name names IH]; intros tr Hall.
  - by left.
  - cbn [make_teaser.normalize_all].
    match goal with |- context [make_teaser.ensure_norm_tile ?a ?b ?c ?d ?s ?t ?w ?h tr] =>
      pose proof (ensure_norm_tile_outcome d s t w h tr Hall) as H1;
      destruct (make_teaser.ensure_norm_tile a b c d s t w h tr) as [tr1 [[]|e1]]
    end.
    2:{ destruct H1 as [[? ?]|[? ?]]; [done|]. cbn [snd] in *. by right. }
    destruct H1 as [[_ Hall1]|[? _]]; [|done]. cbn [fst] in Hall1.
    match goal with |- context [make_teaser.ensure_norm_tile ?a ?b ?c ?d ?s ?t ?w ?h tr1] =>
      pose proof (ensure_norm_tile_outcome d s t w h tr1 Hall1) as H2;
      destruct (make_teaser.ensure_norm_tile a b c d s t w h tr1) as [tr2 [[]|e2]]
    end.
    2:{ destruct H2 as [[? ?]|[? ?]]; [done|]. cbn [snd] in *. by right. }
    destruct H2 as [[_ Hall2]|[? _]]; [|done]. by apply IH.
Qed.

Lemma build_xstack_stops inputs out_path W H tr :
  all_ok tr →
  stops_at_first_failure exit_ok
    (make_teaser.build_xstack COLS ROWS exit_ok inputs out_path W H tr).
Proof.
  intros Hall. unfold make_teaser.build_xstack.
  destruct (negb _); [done|]. by apply run_outcome_stops, run_outcome_run.
Qed.

Lemma even_never_fails_a_command x :
  make_teaser.even x ≠ Raise CalledProcessError.
Proof.
  unfold make_teaser.even.
  destruct (F64.ceil _) as [c|e] eqn:Hceil; [done|].
  cbn. intros [= ->]. revert Hceil. unfold F64.ceil.
  repeat case_match; done.
Qed.

Lemma tile_size_never_fails_a_command sizes :
  make_teaser.tile_size sizes ≠ Raise CalledProcessError.
Proof.
  destruct sizes as [|[w0 h0] rest]; [done|]. cbn [make_teaser.tile_size].
  pose proof (even_never_fails_a_command
                (Some (make_teaser.py_max w0 rest.*1))) as Hw.
  pose proof (even_never_fails_a_command
                (Some (make_teaser.py_max h0 rest.*2))) as Hh.
  destruct (make_teaser.even (Some (make_teaser.py_max w0 rest.*1)))
    as [W|e]; [|cbn; congruence].
  destruct (make_teaser.even (Some (make_teaser.py_max h0 rest.*2)))
    as [H|e]; [done|cbn; congruence].
Qed.

(** X18. [main] never runs a command after one that failed: whatever
    the folders, the probes and the exit statuses are, every command of
    the run but the last exited with 0, and [main] raises
    [CalledProcessError] exactly when the last one did not. *)
Theorem main_stops_at_first_failure :
  stops_at_first_failure exit_ok main.
Proof.
  unfold make_teaser.main.
  destruct (make_teaser.collect FOLDERS exists_ ffprobe) as [sizes durs].
  pose proof (tile_size_never_fails_a_command sizes) as Hts.
  destruct (make_teaser.tile_size sizes) as [[W H]|e].
  2:{ unfold stops_at_first_failure. cbn [fst snd]. by destruct e. }
  match goal with |- context [make_teaser.normalize_all ?a ?b ?c ?d W H FOLDERS []] =>
    pose proof (normalize_all_outcome d W H FOLDERS [] (Forall_nil_2 _)) as Hn;
    destruct (make_teaser.normalize_all a b c d W H FOLDERS []) as [tr1 [[]|e1]]
  end.
  2:{ apply run_outcome_stops. destruct Hn as [[? ?]|[? ?]]; [done|by right]. }
  destruct Hn as [[_ Hall1]|[? _]]; [|done]. cbn [fst] in Hall1.
  pose proof (build_xstack_stops (make_teaser.orig_tiles FOLDERS)
                make_teaser.OUT_ORIG W H tr1 Hall1) as Hb.
  destruct (make_teaser.build_xstack COLS ROWS exit_ok
              (make_teaser.orig_tiles FOLDERS) make_teaser.OUT_ORIG W H tr1)
    as [tr2 [[]|e2]]; [|done].
  by apply build_xstack_stops.
Qed.

Lemma normalize_all_succeeds D W H names tr :
  (∀ cmd, exit_ok cmd = true) →
  ∃ tiles,
    make_teaser.normalize_all exists_ py_str_float exit_ok D W H names tr
    = (tr ++ tiles, Ok ())
    ∧ length tiles = (2 * length names)%nat.
Proof.
  intros Hok. revert tr. induction names as [|name names IH]; intros tr.
  - exists []. by rewrite app_nil_r.
  - cbn [make_teaser.normalize_all].
    unfold make_teaser.ensure_norm_tile, make_teaser.run.
    rewrite !Hok.
    match goal with |- context [make_teaser.normalize_all _ _ _ _ _ _ _ ((tr ++ [?c1]) ++ [?c2])] =>
      destruct (IH ((tr ++ [c1]) ++ [c2])) as (tiles & -> & Hlen);
      exists (c1 :: c2 :: tiles)
    end.
    split; [by rewrite <- !app_assoc|]. cbn [length]. lia.
Qed.

(** X19. When the number of folders is not COLS x ROWS, [main] still
    encodes both tiles of every folder first: with commands that all
    succeed it raises the [AssertionError] of [build_xstack] only after
    [2 * len(FOLDERS)] tile commands, and runs no mosaic command. *)
Theorem main_checks_grid_after_tiles (W H : Z) :
  make_teaser.tile_size (make_teaser.collect FOLDERS exists_ ffprobe).1
    = Ok (W, H) →
  (∀ cmd, exit_ok cmd = true) →
  Z.of_nat (length FOLDERS) ≠ COLS * ROWS →
  ∃ tiles msg,
    main = (tiles, Raise (AssertionError msg))
    ∧ length tiles = (2 * length FOLDERS)%nat.
Proof.
  intros Hts Hok Hgrid. unfold make_teaser.main.
  destruct (make_teaser.collect FOLDERS exists_ ffprobe) as [sizes durs].
  cbn [fst] in Hts. rewrite Hts.
  match goal with |- context [make_teaser.normalize_all _ _ _ ?d W H FOLDERS []] =>
    destruct (normalize_all_succeeds d W H FOLDERS [] Hok) as (tiles & -> & Hlen)
  end.
  unfold make_teaser.build_xstack at 1, make_teaser.orig_tiles.
  rewrite length_fmap.
  destruct (Z.eqb_spec (Z.of_nat (length FOLDERS)) (COLS * ROWS)); [done|].
  cbn [negb]. eauto.
Qed.

(** X20. When the number of folders is COLS x ROWS and every command
    succeeds, [main] returns after [2 * len(FOLDERS)] tile commands
    followed by exactly two mosaic commands, the first writing
    [OUT_ORIG] and the second [OUT_INPAINT]. *)
Theorem main_builds_both_mosaics (W H : Z) :
  make_teaser.tile_size (make_teaser.collect FOLDERS exists_ ffprobe).1
    = Ok (W, H) →
  (∀ cmd, exit_ok cmd = true) →
  Z.of_nat (length FOLDERS) = COLS * ROWS →
  ∃ tiles c1 c2,
    main = (tiles ++ [c1; c2], Ok ())
    ∧ length tiles = (2 * length FOLDERS)%nat
    ∧ last c1 = Some (pathlib.str make_teaser.OUT_ORIG)
    ∧ last c2 = Some (pathlib.str make_teaser.OUT_INPAINT).
Proof.
  intros Hts Hok Hgrid. unfold make_teaser.main.
  destruct (make_teaser.collect FOLDERS exists_ ffprobe) as [sizes durs].
  cbn [fst] in Hts. rewrite Hts.
  match goal with |- context [make_teaser.normalize_all _ _ _ ?d W H FOLDERS []] =>
    destruct (normalize_all_succeeds d W H FOLDERS [] Hok) as (tiles & -> & Hlen)
  end.
  unfold make_teaser.build_xstack, make_teaser.orig_tiles,
    make_teaser.inpaint_tiles, make_teaser.run.
  rewrite !length_fmap, !Hok.
  destruct (Z.eqb_spec (Z.of_nat (length FOLDERS)) (COLS * ROWS)); [|done].
  cbn [negb].
  eexists tiles, _, _. split; [by rewrite <- app_assoc|].
  split; [done|].
  split; by rewrite !last_app.
Qed.
End make_teaser_main.

(** ** batch_tune_color: tuning files in place *)

Section batch_tune_color_properties.
Variable content : Type.
Variable ffmpeg_eq : content → option content * bool.

Local Abbreviation tune_inplace := (batch_tune_color.tune_inplace content ffmpeg_eq).
Local Abbreviation main_loop := (batch_tune_color.main_loop content ffmpeg_eq).
Local Abbreviation tmp_of := (λ f, pathlib.with_suffix f ".tmp.mp4").

Lemma tune_inplace_ok in_path fs c c' :
  fs !! in_path = Some c → ffmpeg_eq c = (Some c', true) →
  tune_inplace in_path fs
  = (<[in_path := c']> (delete (tmp_of in_path) fs), Ok ()).
Proof.
  intros Hin Hrun. unfold batch_tune_color.tune_inplace.
  rewrite Hin, Hrun. cbn [negb]. rewrite lookup_insert_eq.
  by rewrite delete_insert_eq.
Qed.

(** X21. When [ffmpeg] fails, [tune_inplace] raises
    [CalledProcessError] and the input keeps its content, as does every
    path but the temporary one; the temporary file is not removed: it
    holds whatever [ffmpeg] left there. *)
Theorem tune_inplace_failure_keeps_input in_path fs c :
  fs !! in_path = Some c → (ffmpeg_eq c).2 = false →
  ∃ fs', tune_inplace in_path fs = (fs', Raise CalledProcessError)
    ∧ fs' !! in_path = Some c
    ∧ (∀ p, p ≠ tmp_of in_path → fs' !! p = fs !! p)
    ∧ fs' !! tmp_of in_path
      = match (ffmpeg_eq c).1 with
        | Some c' => Some c'
        | None => fs !! tmp_of in_path
        end.
Proof.
  intros Hin Hfail.
  assert (Hne : tmp_of in_path ≠ in_path)
    by (by apply (with_suffix_ne in_path ".tmp.mp4" 3)).
  unfold batch_tune_color.tune_inplace. rewrite Hin.
  destruct (ffmpeg_eq c) as [written ok]. cbn [fst snd] in *. subst ok.
  cbn [negb]. eexists. split; [done|].
  destruct written as [c'|].
  - split; [by rewrite lookup_insert_ne|].
    split; [|by rewrite lookup_insert_eq].
    intros p Hp. by rewrite lookup_insert_ne.
  - done.
Qed.

(** X22. When [ffmpeg] succeeds and writes its output, [tune_inplace]
    returns with the input path holding the new content, the temporary
    path gone, and every other path as before. *)
Theorem tune_inplace_replaces_input in_path fs c c' :
  fs !! in_path = Some c → ffmpeg_eq c = (Some c', true) →
  ∃ fs', tune_inplace in_path fs = (fs', Ok ())
    ∧ fs' !! in_path = Some c'
    ∧ fs' !! tmp_of in_path = None
    ∧ (∀ p, p ≠ in_path → p ≠ tmp_of in_path → fs' !! p = fs !! p).
Proof.
  intros Hin Hrun.
  assert (Hne : tmp_of in_path ≠ in_path)
    by (by apply (with_suffix_ne in_path ".tmp.mp4" 3)).
  rewrite (tune_inplace_ok _ _ _ _ Hin Hrun). eexists. split; [done|].
  split; [by rewrite lookup_insert_eq|].
  split; [by rewrite lookup_insert_ne, lookup_delete_eq|].
  intros p Hp Hq. by rewrite lookup_insert_ne, lookup_delete_ne.
Qed.

Lemma present_ext (fs1 fs2 : gmap pathlib.path content) inputs :
  (∀ f, f ∈ inputs → fs1 !! f = fs2 !! f) →
  present fs1 inputs = present fs2 inputs.
Proof.
  unfold present.
  induction inputs as [|f inputs IH]; intros Hsame; [done|].
  rewrite !filter_cons, (Hsame f) by left.
  rewrite IH by (intros g Hg; apply Hsame; by right). done.
Qed.

Lemma main_loop_all inputs processed missing fs :
  NoDup inputs →
  (∀ f, f ∈ inputs → tmp_of f ∉ inputs) →
  (∀ c, ∃ c', ffmpeg_eq c = (Some c', true)) →
  ∃ fs',
    main_loop inputs processed missing fs
    = (fs', Ok (processed + Z.of_nat (length (present fs inputs)),
                missing + Z.of_nat (length inputs
                                    - length (present fs inputs))))
    ∧ (∀ f, f ∈ inputs → fs' !! f = fs !! f ≫= λ c, (ffmpeg_eq c).1)
    ∧ (∀ f, f ∈ inputs → is_Some (fs !! f) → fs' !! tmp_of f = None)
    ∧ (∀ q, q ∉ inputs →
         (∀ f, f ∈ inputs → is_Some (fs !! f) → q ≠ tmp_of f) →
         fs' !! q = fs !! q)
    ∧ (∀ q, q ∉ inputs → fs !! q = None → fs' !! q = None).
Proof.
  intros Hnodup Htmp Hrun. revert processed missing fs.
  induction inputs as [|f inputs IH]; intros processed missing fs.
  { exists fs. cbn. rewrite !Z.add_0_r.
    split; [done|]. split; [by intros f ?%elem_of_nil|]. 
    split; [by intros f ?%elem_of_nil|]. done. }
  apply NoDup_cons in Hnodup as [Hf Hnodup].
  assert (Htmp' : ∀ g, g ∈ inputs → tmp_of g ∉ inputs).
  { intros g Hg Hin. apply (Htmp g); by right. }
  assert (Hf_tmp : ∀ g, g ∈ inputs → f ≠ tmp_of g).
  { intros g Hg Heq. apply (Htmp g); [by right|]. rewrite <- Heq. by left. }
  assert (Htmp_f : tmp_of f ∉ inputs).
  { intros Hin. apply (Htmp f); [by left|by right]. }
  assert (Hne : tmp_of f ≠ f)
    by (by apply (with_suffix_ne f ".tmp.mp4" 3)).
  specialize (IH Hnodup Htmp').
  cbn [batch_tune_color.main_loop].
  assert (Hpresent : present fs (f :: inputs)
                     = if decide (is_Some (fs !! f))
                       then f :: present fs inputs else present fs inputs)
    by (unfold present; by rewrite filter_cons).
  rewrite Hpresent. clear Hpresent.
  destruct (fs !! f) as [c|] eqn:Hc.
  - destruct (Hrun c) as (c' & Hc').
    rewrite (tune_inplace_ok _ _ _ _ Hc Hc').
    set (fs1 := <[f := c']> (delete (tmp_of f) fs)).
    assert (Hsame : ∀ g, g ∈ inputs → fs1 !! g = fs !! g).
    { intros g Hg. unfold fs1.
      rewrite lookup_insert_ne by (by intros ->).
      rewrite lookup_delete_ne by (by intros <-). done. }
    destruct (IH (processed + 1) missing fs1)
      as (fs' & Hloop & Htuned & Hgone & Hrest & Hnone).
    rewrite (present_ext fs1 fs) in Hloop by done.
    exists fs'. rewrite decide_True by done. split.
    { rewrite Hloop. cbn [length]. do 3 f_equal; lia. }
    split; [|split; [|split]].
    + intros g [->|Hg]%elem_of_cons.
      * rewrite Hrest; [|done|by intros g Hg _; apply Hf_tmp].
        unfold fs1. rewrite lookup_insert_eq, Hc. cbn. by rewrite Hc'.
      * by rewrite Htuned, Hsame.
    + intros g [->|Hg]%elem_of_cons Hsome.
      * apply Hnone; [done|]. unfold fs1.
        by rewrite lookup_insert_ne, lookup_delete_eq.
      * apply Hgone; [done|]. by rewrite Hsame.
    + intros q Hq Hnot. apply not_elem_of_cons in Hq as [Hqf Hq].
      rewrite Hrest; [|done|].
      * unfold fs1. rewrite lookup_insert_ne by done.
        rewrite lookup_delete_ne; [done|].
        intros Heq. apply (Hnot f); [by left|by rewrite Hc|done].
      * intros g Hg Hsome. apply Hnot; [by right|]. by rewrite <- Hsame.
    + intros q Hq Hnone'. apply not_elem_of_cons in Hq as [Hqf Hq].
      apply Hnone; [done|]. unfold fs1. rewrite lookup_insert_ne by done.
      destruct (decide (q = tmp_of f)) as [->|?];
        [by rewrite lookup_delete_eq|by rewrite lookup_delete_ne].
  - destruct (IH processed (missing + 1) fs)
      as (fs' & Hloop & Htuned & Hgone & Hrest & Hnone).
    exists fs'. rewrite decide_False by (by intros [? ?]). split.
    { rewrite Hloop. cbn [length].
      pose proof (length_filter (λ f, is_Some (fs !! f)) inputs) as Hle.
      fold (present fs inputs) in Hle.
      do 3 f_equal; lia. }
    split; [|split; [|split]].
    + intros g [->|Hg]%elem_of_cons; [|by apply Htuned].
      rewrite Hrest, Hc; [done..|]. by intros g Hg _; apply Hf_tmp.
    + intros g [->|Hg]%elem_of_cons Hsome; [|by apply Hgone].
      rewrite Hc in Hsome. by destruct Hsome.
    + intros q Hq Hnot. apply not_elem_of_cons in Hq as [Hqf Hq].
      apply Hrest; [done|]. intros g Hg. apply Hnot. by right.
    + intros q Hq. apply not_elem_of_cons in Hq as [Hqf Hq]. by apply Hnone.
Qed.

(** X23. With an [ffmpeg] that always succeeds, the loops of [main]
    over distinct input files, none of which is the temporary path of
    another, return normally: [processed] counts the inputs that exist
    and [missing] the others; every input that exists holds its tuned
    content, its temporary file is gone, and every other path is
    untouched. *)
Theorem main_loop_tunes_every_present_file inputs fs :
  NoDup inputs →
  (∀ f, f ∈ inputs → tmp_of f ∉ inputs) →
  (∀ c, ∃ c', ffmpeg_eq c = (Some c', true)) →
  ∃ fs',
    main_loop inputs 0 0 fs
    = (fs', Ok (Z.of_nat (length (present fs inputs)),
                Z.of_nat (length inputs - length (present fs inputs))))
    ∧ (∀ f, f ∈ inputs → fs' !! f = fs !! f ≫= λ c, (ffmpeg_eq c).1)
    ∧ (∀ f, f ∈ inputs → is_Some (fs !! f) → fs' !! tmp_of f = None)
    ∧ (∀ q, q ∉ inputs →
         (∀ f, f ∈ inputs → is_Some (fs !! f) → q ≠ tmp_of f) →
         fs' !! q = fs !! q).
Proof.
  intros Hnodup Htmp Hrun.
  destruct (main_loop_all inputs 0 0 fs Hnodup Htmp Hrun)
    as (fs' & Hloop & Htuned & Hgone & Hrest & _).
  exists fs'. by rewrite !Z.add_0_l in Hloop.
Qed.

Lemma main_loop_result inputs processed missing fs fs' p m :
  main_loop inputs processed missing fs = (fs', Ok (p, m)) →
  0 ≤ processed → 0 ≤ missing →
  p + m = processed + missing + Z.of_nat (length inputs)
  ∧ processed ≤ p ∧ missing ≤ m.
Proof.
  revert processed missing fs.
  induction inputs as [|f inputs IH]; intros processed missing fs.
  { cbn. intros [= <- <- <-]. lia. }
  cbn [batch_tune_color.main_loop length].
  destruct (fs !! f) as [c|].
  - destruct (tune_inplace f fs) as [fs1 [[]|e]]; [|done].
    intros Hloop ? ?. apply IH in Hloop; lia.
  - intros Hloop ? ?. apply IH in Hloop; lia.
Qed.

(** X24. Whenever [main] returns, with the tasks as shipped, the two
    counts it prints add up to the eight files of the two tasks. *)
Theorem main_counts_add_up fs fs' p m :
  batch_tune_color.main content ffmpeg_eq fs = (fs', Ok (p, m)) →
  p + m = 8 ∧ 0 ≤ p ∧ 0 ≤ m.
Proof.
  intros Hmain. apply main_loop_result in Hmain; [|done..].
  cbn in Hmain. lia.
Qed.
End batch_tune_color_properties.

(** ** Instances of the properties above *)

Section instances.
Local Abbreviation clip := ("clips/a", "cropped_video.mp4") (only parsing).
Local Abbreviation other := ("clips/b", "cropped_video.mp4") (only parsing).
(** A source of one 2 x 1 colour frame, and writers that leave content
    [1] or nothing. *)
Local Abbreviation one_frame :=
  (λ _ : nat, cv2.Capture true (F64.of_Z 30) 2 1 1
                [Some (cv2.Bgr [[Px 1 2 3; Px 4 5 6]])]) (only parsing).
Local Abbreviation writes := (λ _ _ _ _, Some 1%nat) (only parsing).
Local Abbreviation writes_nothing :=
  (λ _ _ _ _, @None nat) (only parsing).
Local Abbreviation process_one_with :=
  (color.process_one reference.powf reference.mean2 reference.mean1 nat)
  (only parsing).

Lemma job_writes_instance :
  job_writes nat one_frame writes clip {[ clip := 0%nat ]} 0%nat 1%nat
    ((λ frame, color.color_fix reference.powf reference.mean2
                 reference.mean1 (as_bgr frame))
       <$> yielded (cv2.cap_reads (one_frame 0%nat))).
Proof.
  unfold job_writes.
  split; [apply lookup_singleton_eq|].
  split; [reflexivity|]. split; [reflexivity|]. split; [reflexivity|].
  split; [discriminate|reflexivity].
Defined.

Lemma not_a_job_path_instance : other ∉ job_paths clip.
Proof.
  vm_compute (job_paths _). rewrite !not_elem_of_cons.
  split; [discriminate|]. split; [discriminate|].
  split; [discriminate|]. split; [discriminate|]. apply not_elem_of_nil.
Defined.

Lemma process_one_replaces_file_witness :
  ∃ fs',
    process_one_with one_frame writes false (λ _, None)
      (λ _ _, (None, false)) clip {[ clip := 0%nat ]} = (fs', Ok true)
    ∧ fs' !! clip = Some 1%nat.
Proof.
  destruct (process_one_replaces_file reference.powf reference.mean2
              reference.mean1 nat one_frame writes false (λ _, None)
              (λ _ _, (None, false)) clip {[ clip := 0%nat ]} 0%nat 1%nat
              job_writes_instance eq_refl)
    as (fs' & Hrun & Hnew & _).
  exists fs'. split; [exact Hrun|exact Hnew].
Defined.

Lemma process_one_transcodes_witness :
  ∃ fs',
    process_one_with one_frame writes true (λ _, None)
      (λ _ _, (Some 2%nat, true)) clip {[ clip := 0%nat ]} = (fs', Ok true)
    ∧ fs' !! clip = Some 2%nat.
Proof.
  destruct (process_one_transcodes reference.powf reference.mean2
              reference.mean1 nat one_frame writes true (λ _, None)
              (λ _ _, (Some 2%nat, true)) clip {[ clip := 0%nat ]}
              0%nat 1%nat 2%nat job_writes_instance eq_refl
              (λ _, eq_refl))
    as (fs' & Hrun & Hnew & _).
  exists fs'. split; [exact Hrun|exact Hnew].
Defined.

Lemma process_one_keeps_mp4v_when_transcode_fails_witness :
  ∃ fs',
    process_one_with one_frame writes true (λ _, None)
      (λ _ _, (None, false)) clip {[ clip := 0%nat ]} = (fs', Ok true)
    ∧ fs' !! clip = Some 1%nat.
Proof.
  destruct (process_one_keeps_mp4v_when_transcode_fails reference.powf
              reference.mean2 reference.mean1 nat one_frame writes true
              (λ _, None) (λ _ _, (None, false)) clip {[ clip := 0%nat ]}
              0%nat 1%nat job_writes_instance eq_refl (λ _, eq_refl))
    as (fs' & Hrun & Hnew & _).
  exists fs'. split; [exact Hrun|exact Hnew].
Defined.

Lemma process_one_rolls_back_witness :
  ∃ fs',
    process_one_with one_frame writes_nothing false (λ _, None)
      (λ _ _, (None, false)) clip {[ clip := 0%nat ]} = (fs', Ok false)
    ∧ fs' !! clip = Some 0%nat.
Proof.
  destruct (process_one_rolls_back reference.powf reference.mean2
              reference.mean1 nat one_frame writes_nothing false
              (λ _, None) (λ _ _, (None, false)) clip {[ clip := 0%nat ]}
              0%nat)
    as (fs' & Hrun & Hold & _).
  - apply lookup_singleton_eq.
  - reflexivity.
  - reflexivity.
  - reflexivity.
  - discriminate.
  - reflexivity.
  - apply lookup_singleton_ne. apply not_eq_sym.
    by apply (with_suffix_ne _ ".tmp.mp4" 3).
  - exists fs'. split; [exact Hrun|exact Hold].
Defined.

Lemma process_one_touches_only_job_paths_witness :
  (process_one_with one_frame writes false (λ _, None)
     (λ _ _, (None, false)) clip {[ clip := 0%nat; other := 5%nat ]}).1
    !! other = Some 5%nat.
Proof.
  rewrite (process_one_touches_only_job_paths reference.powf
             reference.mean2 reference.mean1 nat one_frame writes false
             (λ _, None) (λ _ _, (None, false)) clip other
             {[ clip := 0%nat; other := 5%nat ]} not_a_job_path_instance).
  rewrite lookup_insert_ne by discriminate. apply lookup_singleton_eq.
Defined.

Lemma main_touches_only_job_paths_witness :
  (color.main reference.powf reference.mean2 reference.mean1 nat
     one_frame writes false (λ _, None) (λ _ _, (None, false))
     (λ _ _, None)
     [clip] {[ clip := 0%nat; other := 5%nat ]}).1 !! other = Some 5%nat.
Proof.
  rewrite (main_touches_only_job_paths reference.powf reference.mean2
             reference.mean1 nat one_frame writes false (λ _, None)
             (λ _ _, (None, false)) (λ _ _, None) [clip] other
             {[ clip := 0%nat; other := 5%nat ]}).
  - rewrite lookup_insert_ne by discriminate. apply lookup_singleton_eq.
  - intros f ->%list_elem_of_singleton. exact not_a_job_path_instance.
Defined.

(** A batch of two files in which Ctrl-C arrives during the second job,
    before it has written anything: the first job is counted, the second
    is not, and the files keep what the first job made. *)
Lemma main_interrupted_instance :
  color.main reference.powf reference.mean2 reference.mean1 nat
    one_frame writes false (λ _, None) (λ _ _, (None, false))
    (λ f fs, if bool_decide (f = other) then Some fs else None)
    [clip; other] {[ clip := 0%nat; other := 5%nat ]}
  = ({[ clip := 1%nat; other := 5%nat ]}, Ok (1, 0)).
Proof. vm_compute. reflexivity. Qed.

Lemma color_fix_keeps_grayscale_witness :
  Forall (Forall gray_px)
    (color.color_fix reference.powf reference.mean2 reference.mean1
       [[Px 7 7 7; Px 200 200 200]]).
Proof.
  apply color_fix_keeps_grayscale.
  repeat constructor.
Defined.

Lemma apply_adjust_gain_reaches_one_channel_witness :
  tune_video.apply_adjust (λ _ _, S754_nan) [[Px 10 20 30]]
    (F64.of_Z 1) (F64.of_Z 1) (F64.of_Z 1, F64.of_Z 1, F64.of_Z 2)
    (F64.of_Z 1) = Ok [[Px 20 20 30]]
  ∧ tune_video.apply_adjust (λ _ _, S754_nan) [[Px 10 20 30]]
      (F64.of_Z 1) (F64.of_Z 1) (F64.of_Z 1, F64.of_Z 1, F64.of_Z 1)
      (F64.of_Z 1) = Ok [[Px 10 20 30]]
  ∧ Forall2 (Forall2 (λ p p' : px Z, ch1 p = ch1 p' ∧ ch2 p = ch2 p'))
      [[Px 20 20 30]] [[Px 10 20 30]].
Proof.
  destruct (apply_adjust_gain_reaches_one_channel (λ _ _, S754_nan)
              [[Px 10 20 30]] (F64.of_Z 1) (F64.of_Z 1) (F64.of_Z 1)
              (F64.of_Z 1) (F64.of_Z 1) (F64.of_Z 2)
              (F64.of_Z 1) (F64.of_Z 1) (F64.of_Z 1))
    as (out & out' & Hout & Hout' & Hsame).
  - vm_compute. reflexivity.
  - assert (H2 : tune_video.apply_adjust (λ _ _, S754_nan) [[Px 10 20 30]]
                   (F64.of_Z 1) (F64.of_Z 1)
                   (F64.of_Z 1, F64.of_Z 1, F64.of_Z 2) (F64.of_Z 1)
                 = Ok [[Px 20 20 30]]) by (vm_compute; reflexivity).
    assert (H1 : tune_video.apply_adjust (λ _ _, S754_nan) [[Px 10 20 30]]
                   (F64.of_Z 1) (F64.of_Z 1)
                   (F64.of_Z 1, F64.of_Z 1, F64.of_Z 1) (F64.of_Z 1)
                 = Ok [[Px 10 20 30]]) by (vm_compute; reflexivity).
    split; [exact H2|]. split; [exact H1|].
    rewrite H2 in Hout. rewrite H1 in Hout'.
    injection Hout as <-. injection Hout' as <-.
    eapply Forall2_impl; [exact Hsame|]. intros row row' Hrow.
    eapply Forall2_impl; [exact Hrow|].
    intros p p' (_ & Hg & Hr). split; [by apply Hg|by apply Hr].
Defined.

Lemma main_gamma_zero_raises_witness :
  tune_video.main (λ _ _, S754_nan)
    (tune_video.Args "in.mp4" "out.mp4" (F64.of_Z 1) (F64.of_Z 1)
       (F64.of_Z 1) (F64.of_Z 1) (F64.of_Z 1) (F64.of_Z 0) 0)
    (cv2.Capture true (F64.of_Z 30) 1 1 5 [Some [[Px 128 128 128]]])
  = Raise ZeroDivisionError.
Proof.
  apply (main_gamma_zero_raises (λ _ _, S754_nan)
           (tune_video.Args "in.mp4" "out.mp4" (F64.of_Z 1) (F64.of_Z 1)
              (F64.of_Z 1) (F64.of_Z 1) (F64.of_Z 1) (F64.of_Z 0) 0)
           (cv2.Capture true (F64.of_Z 30) 1 1 5 [Some [[Px 128 128 128]]])
           [[Px 128 128 128]] []).
  - reflexivity.
  - vm_compute. reflexivity.
  - vm_compute. reflexivity.
  - reflexivity.
Defined.

Lemma main_without_limit_witness :
  ∃ run,
    tune_video.main (λ _ _, S754_nan)
      (tune_video.Args "in.mp4" "out.mp4" (F64.dec 12 1) (F64.dec 11 1)
         (F64.of_Z 1) (F64.of_Z 1) (F64.dec 13 1) (F64.of_Z 1) 0)
      (cv2.Capture true (F64.of_Z 30) 1 1 2
         [Some [[Px 128 128 128]]; Some [[Px 0 0 0]];
          Some [[Px 255 255 255]]]) = Ok run
    ∧ length (tune_video.enc_stdin run) = 2%nat.
Proof.
  destruct (main_without_limit (λ _ _, S754_nan)
    (tune_video.Args "in.mp4" "out.mp4" (F64.dec 12 1) (F64.dec 11 1)
       (F64.of_Z 1) (F64.of_Z 1) (F64.dec 13 1) (F64.of_Z 1) 0)
    (cv2.Capture true (F64.of_Z 30) 1 1 2
       [Some [[Px 128 128 128]]; Some [[Px 0 0 0]];
        Some [[Px 255 255 255]]]))
    as (run & outs & Hrun & Houts & Hin).
  - reflexivity.
  - cbn. lia.
  - vm_compute. reflexivity.
  - exists run. split; [exact Hrun|].
    rewrite Hin, length_fmap.
    apply Forall2_length in Houts. rewrite <- Houts. reflexivity.
Defined.

Lemma apply_adjust_contrast_fixes_mid_gray_witness :
  tune_video.apply_adjust (λ _ _, S754_nan)
    [[Px 128 128 128; Px 128 128 128]] (F64.of_Z 1) (F64.dec 25 1)
    (F64.of_Z 1, F64.of_Z 1, F64.of_Z 1) (F64.of_Z 1)
  = Ok [[Px 128 128 128; Px 128 128 128]].
Proof.
  apply apply_adjust_contrast_fixes_mid_gray.
  - vm_compute. exact I.
  - vm_compute. repeat constructor.
Defined.

Lemma xstack_layout_row_major_witness :
  length (make_teaser.xstack_layout 6 3 640 360) = 18%nat
  ∧ make_teaser.xstack_layout 6 3 640 360 !! 8%nat = Some "1280_360".
Proof.
  destruct (xstack_layout_row_major 6 3 640 360 2 1) as [Hlen Hat];
    [lia|lia|].
  split; [exact Hlen|exact Hat].
Defined.

Lemma main_exits_without_sources_witness :
  make_teaser.main ["Cassie-door"] 6 3 (λ _, false) (λ _, None)
    (λ _, "10.0") (λ _, true)
  = ([], Raise (SystemExit 1)).
Proof. apply main_exits_without_sources. reflexivity. Defined.

Lemma main_checks_grid_after_tiles_witness :
  ∃ tiles msg,
    make_teaser.main ["Cassie-door"] 6 3 (λ _, true)
      (λ _, Some (641, 361, F64.of_Z 10)) (λ _, "10.0") (λ _, true)
    = (tiles, Raise (AssertionError msg))
    ∧ length tiles = 2%nat.
Proof.
  apply (main_checks_grid_after_tiles ["Cassie-door"] 6 3 (λ _, true)
           (λ _, Some (641, 361, F64.of_Z 10)) (λ _, "10.0") (λ _, true)
           642 362).
  - vm_compute. reflexivity.
  - reflexivity.
  - cbn. lia.
Defined.

Lemma main_builds_both_mosaics_witness :
  ∃ tiles c1 c2,
    make_teaser.main ["Cassie-door"] 1 1 (λ _, true)
      (λ _, Some (641, 361, F64.of_Z 10)) (λ _, "10.0") (λ _, true)
    = (tiles ++ [c1; c2], Ok ())
    ∧ length tiles = 2%nat
    ∧ last c1 = Some (pathlib.str make_teaser.OUT_ORIG)
    ∧ last c2 = Some (pathlib.str make_teaser.OUT_INPAINT).
Proof.
  apply (main_builds_both_mosaics ["Cassie-door"] 1 1 (λ _, true)
           (λ _, Some (641, 361, F64.of_Z 10)) (λ _, "10.0") (λ _, true)
           642 362).
  - vm_compute. reflexivity.
  - reflexivity.
  - reflexivity.
Defined.

Lemma tune_inplace_failure_keeps_input_witness :
  ∃ fs',
    batch_tune_color.tune_inplace nat (λ _, (None, false)) clip
      {[ clip := 0%nat ]} = (fs', Raise CalledProcessError)
    ∧ fs' !! clip = Some 0%nat.
Proof.
  destruct (tune_inplace_failure_keeps_input nat (λ _, (None, false))
              clip {[ clip := 0%nat ]} 0%nat)
    as (fs' & Hrun & Hold & _).
  - apply lookup_singleton_eq.
  - reflexivity.
  - exists fs'. split; [exact Hrun|exact Hold].
Defined.

Lemma tune_inplace_replaces_input_witness :
  ∃ fs',
    batch_tune_color.tune_inplace nat (λ c, (Some (S c), true)) clip
      {[ clip := 0%nat ]} = (fs', Ok ())
    ∧ fs' !! clip = Some 1%nat.
Proof.
  destruct (tune_inplace_replaces_input nat (λ c, (Some (S c), true))
              clip {[ clip := 0%nat ]} 0%nat 1%nat)
    as (fs' & Hrun & Hnew & _).
  - apply lookup_singleton_eq.
  - reflexivity.
  - exists fs'. split; [exact Hrun|exact Hnew].
Defined.

Lemma shipped_inputs_distinct :
  NoDup (batch_tune_color.in_files batch_tune_color.TASKS)
  ∧ ∀ f, f ∈ batch_tune_color.in_files batch_tune_color.TASKS →
         pathlib.with_suffix f ".tmp.mp4"
           ∉ batch_tune_color.in_files batch_tune_color.TASKS.
Proof.
  split.
  - apply (bool_decide_unpack _). vm_compute. exact I.
  - apply Forall_forall. apply (bool_decide_unpack _). vm_compute. exact I.
Defined.

Local Abbreviation drawer_1 :=
  (pathlib.joinpath
     (pathlib.joinpath (pathlib.joinpath batch_tune_color.ROOT "drawer")
        "1") "removed_w_mask_5.mp4") (only parsing).
Local Abbreviation mustard_3 :=
  (pathlib.joinpath
     (pathlib.joinpath (pathlib.joinpath batch_tune_color.ROOT "mustard")
        "3") "removed_w_mask_5.mp4") (only parsing).

Lemma two_of_eight_present :
  Z.of_nat (length (present {[ drawer_1 := 10%nat; mustard_3 := 20%nat ]}
                      (batch_tune_color.in_files batch_tune_color.TASKS)))
  = 2
  ∧ Z.of_nat (length (batch_tune_color.in_files batch_tune_color.TASKS)
              - length (present
                          {[ drawer_1 := 10%nat; mustard_3 := 20%nat ]}
                          (batch_tune_color.in_files
                             batch_tune_color.TASKS)))
    = 6.
Proof. split; vm_compute; reflexivity. Defined.

Lemma main_loop_tunes_every_present_file_witness :
  ∃ fs',
    batch_tune_color.main nat (λ c, (Some (S c), true))
      {[ drawer_1 := 10%nat; mustard_3 := 20%nat ]}
    = (fs', Ok (2, 6))
    ∧ fs' !! drawer_1 = Some 11%nat
    ∧ fs' !! mustard_3 = Some 21%nat
    ∧ fs' !! pathlib.with_suffix drawer_1 ".tmp.mp4" = None.
Proof.
  destruct (main_loop_tunes_every_present_file nat (λ c, (Some (S c), true))
              (batch_tune_color.in_files batch_tune_color.TASKS)
              {[ drawer_1 := 10%nat; mustard_3 := 20%nat ]}
              (proj1 shipped_inputs_distinct)
              (proj2 shipped_inputs_distinct))
    as (fs' & Hrun & Htuned & Hgone & _).
  - intros c. by exists (S c).
  - destruct two_of_eight_present as [Hp Hm]. rewrite Hp, Hm in Hrun.
    exists fs'. split; [exact Hrun|].
    split; [|split].
    + rewrite Htuned; [vm_compute; reflexivity|].
      apply (bool_decide_unpack _). vm_compute. exact I.
    + rewrite Htuned; [vm_compute; reflexivity|].
      apply (bool_decide_unpack _). vm_compute. exact I.
    + apply Hgone.
      * apply (bool_decide_unpack _). vm_compute. exact I.
      * exists 10%nat. vm_compute. reflexivity.
Defined.

Lemma main_counts_add_up_witness :
  ∃ fs',
    batch_tune_color.main nat (λ c, (Some (S c), true))
      {[ drawer_1 := 10%nat; mustard_3 := 20%nat ]}
    = (fs', Ok (2, 6))
    ∧ 2 + 6 = 8.
Proof.
  destruct (main_loop_all nat (λ c, (Some (S c), true))
              (batch_tune_color.in_files batch_tune_color.TASKS) 0 0
              {[ drawer_1 := 10%nat; mustard_3 := 20%nat ]}
              (proj1 shipped_inputs_distinct)
              (proj2 shipped_inputs_distinct))
    as (fs' & Hrun & _).
  - intros c. by exists (S c).
  - destruct two_of_eight_present as [Hp Hm]. rewrite Hp, Hm in Hrun.
    exists fs'. split; [exact Hrun|].
    exact (proj1 (main_counts_add_up nat (λ c, (Some (S c), true))
                    {[ drawer_1 := 10%nat; mustard_3 := 20%nat ]} fs' 2 6
                    Hrun)).
Defined.
End instances.
